(** * AI Data Visualization widget: prompt/state orchestration, sanitizing,
      bridge injection, history store and the sandbox-side bridge client.

    A shallow embedding of [src/ai-visualization.ts] (class
    [AIDataVisualization]) and of the bridge client script it injects.

    JavaScript strings are sequences of UTF-16 code units; a code unit is a
    [Z] in [0, 65536).  Indices are [Z] as well, so that the [-1] answers of
    [indexOf] and the [+ 1] arithmetic of the source read as they are
    written.  Values have the types the TypeScript declarations give them:
    the completion function answers a string, the fetch function a JSON
    text. *)

From Stdlib Require Import ZArith List Bool Lia String Ascii.
From stdpp Require Import base list option.
Import ListNotations.
Local Open Scope Z_scope.

(** ** JavaScript strings *)

Module JsString.

Definition jsstring := list Z.

(** An ASCII literal of the source as code units. *)
Definition js (s : string) : jsstring :=
  map (fun a => Z.of_N (N_of_ascii a)) (list_ascii_of_string s).
Arguments js s%_string.

Definition nl : jsstring := [10].

Definition len (s : jsstring) : Z := Z.of_nat (length s).

(** [WhiteSpace] and [LineTerminator] of ECMAScript: the code units removed by
    [String.prototype.trim] and matched by the class [\s] of a regular
    expression (the two sets are the same). *)
Definition isWhiteSpace (c : Z) : bool :=
  ((9 <=? c) && (c <=? 13)) || (c =? 32) || (c =? 160) || (c =? 5760)
  || ((8192 <=? c) && (c <=? 8202)) || (c =? 8232) || (c =? 8233)
  || (c =? 8239) || (c =? 8287) || (c =? 12288) || (c =? 65279).

Definition isBlank (s : jsstring) : bool := forallb isWhiteSpace s.

Fixpoint trimStart (s : jsstring) : jsstring :=
  match s with
  | [] => []
  | c :: t => if isWhiteSpace c then trimStart t else s
  end.

Definition trimEnd (s : jsstring) : jsstring := rev (trimStart (rev s)).

(** [s.trim()] *)
Definition trim (s : jsstring) : jsstring := trimEnd (trimStart s).

(** Does [s] begin with the needle [p], code units compared by [eqb]? *)
Fixpoint startsWithBy (eqb : Z -> Z -> bool) (p s : jsstring) : bool :=
  match p, s with
  | [], _ => true
  | _ :: _, [] => false
  | a :: p', b :: s' => eqb a b && startsWithBy eqb p' s'
  end.

Definition startsWith (p s : jsstring) : bool := startsWithBy Z.eqb p s.

(** How a letter of a pattern matches under the flag [i] (without the flag
    [u]): both sides go through [Canonicalize], which upper-cases one code
    unit and never maps a unit at or above 128 to one below 128.  An ASCII
    letter therefore matches itself and its other case, and nothing else. *)
Definition matchesIgnoreCase (p c : Z) : bool :=
  (p =? c)
  || ((97 <=? p) && (p <=? 122) && (c =? p - 32))
  || ((65 <=? p) && (p <=? 90) && (c =? p + 32)).

Definition startsWithIgnoreCase (p s : jsstring) : bool :=
  startsWithBy matchesIgnoreCase p s.

(** First index [i + k] at which [p] begins in [s], scanning from offset [i];
    [-1] when there is none. *)
Fixpoint indexOfFrom (p s : jsstring) (i : Z) : Z :=
  match s with
  | [] => if startsWith p [] then i else -1
  | _ :: t => if startsWith p s then i else indexOfFrom p t (i + 1)
  end.

(** [s.indexOf(p, position)]: the position is clamped to [0 .. s.length]. *)
Definition indexOf (s p : jsstring) (position : Z) : Z :=
  let k := Z.min (Z.max position 0) (len s) in
  indexOfFrom p (drop (Z.to_nat k) s) k.

(** [s.includes(p)] *)
Definition includes (s p : jsstring) : bool := negb (indexOf s p 0 =? -1).

(** Relative index of [slice]: negative counts from the end, then clamped. *)
Definition clampIndex (s : jsstring) (i : Z) : nat :=
  Z.to_nat (if i <? 0 then Z.max (len s + i) 0 else Z.min i (len s)).

(** [s.slice(a, b)] and [s.slice(a)] *)
Definition slice (s : jsstring) (a b : Z) : jsstring :=
  drop (clampIndex s a) (take (clampIndex s b) s).

Definition sliceFrom (s : jsstring) (a : Z) : jsstring :=
  drop (clampIndex s a) s.

(** [String.prototype.toLowerCase], one code unit at a time.  ASCII capitals
    go to their small letters.  U+0130 (capital I with dot above) is the one
    code unit whose lower-case form has two code units, U+0069 U+0307.
    U+212A (Kelvin sign) goes to ASCII k.  Every other case pair of Unicode
    relates one unit at or above 128 to one unit at or above 128; those
    pairs are not tabulated: they neither create nor hide an occurrence of an
    ASCII needle, nor move an index. *)
Definition toLowerUnit (c : Z) : jsstring :=
  if (65 <=? c) && (c <=? 90) then [c + 32]
  else if c =? 304 then [105; 775]
  else if c =? 8490 then [107]
  else [c].

Definition toLowerCase (s : jsstring) : jsstring := flat_map toLowerUnit s.

(** [parts.join(sep)] *)
Fixpoint join (sep : jsstring) (parts : list jsstring) : jsstring :=
  match parts with
  | [] => []
  | [x] => x
  | x :: rest => x ++ sep ++ join sep rest
  end.

(** [s] occurs in [t] as a contiguous run of code units. *)
Definition occursIn (s t : jsstring) : Prop :=
  exists pre post, t = pre ++ s ++ post.

End JsString.
Import JsString.

(** ** Cleaning the generator's answer *)

Module Sanitize.

Definition fence : jsstring := js "```".

(** [cleaned.replace(/^```\s*html\s*/i, '')]: the class [\s] and the letter h
    are disjoint, so the greedy [\s*] skips every white-space unit and no
    backtracking can find another match. *)
Definition stripLeadingHtmlFence (s : jsstring) : jsstring :=
  if startsWith fence s then
    let r := trimStart (drop 3 s) in
    if startsWithIgnoreCase (js "html") r then trimStart (drop 4 r) else s
  else s.

(** [cleaned.replace(/^```/, '')] *)
Definition stripLeadingFence (s : jsstring) : jsstring :=
  if startsWith fence s then drop 3 s else s.

(** [cleaned.replace(/```\s*$/i, '')]: the leftmost position at which a fence
    is followed by white space only up to the end; the match runs to the end
    of the string, so everything from that position on is removed. *)
Fixpoint stripTrailingFence (s : jsstring) : jsstring :=
  match s with
  | [] => []
  | c :: t =>
      if startsWith fence s && isBlank (drop 3 s) then []
      else c :: stripTrailingFence t
  end.

Definition sanitizeHtmlResponse (raw : jsstring) : jsstring :=
  let cleaned := trim raw in
  let cleaned := stripLeadingFence (stripLeadingHtmlFence cleaned) in
  trim (stripTrailingFence cleaned).

(** A fenced answer: the leading marker, the tag [html] when [tagged], the
    artifact between two separators, the trailing marker. *)
Definition wrapFence (tagged : bool) (sep1 sep2 artifact : jsstring) : jsstring :=
  fence ++ (if tagged then js "html" else []) ++ sep1 ++ artifact ++ sep2 ++ fence.

End Sanitize.
Import Sanitize.

(** ** Installing the bridge in the artifact *)

Module Inject.

(** The two script elements of [injectApiBridge], as the template literal of
    the source spells them (it opens with a line break). *)
Definition bridge : jsstring :=
  nl ++
  js "<script>(function(){window.apiRequest=function(u){return new Promise((res,rej)" ++
  js "=>{const id='req_'+Date.now()+'_'+Math.random().toString(36).substr(2,9);funct" ++
  js "ion h(e){const d=e.data;if(d&&d.type==='API_RESPONSE'&&d.requestId===id){windo" ++
  js "w.removeEventListener('message',h);d.error?rej(new Error(d.error)):res(d.data)" ++
  js ";}}window.addEventListener('message',h);window.parent.postMessage({type:'API_R" ++
  js "EQUEST',requestId:id,url:u},'*');setTimeout(()=>{window.removeEventListener('m" ++
  js "essage',h);rej(new Error('API request timeout'));},3e4);});};})();</script>" ++
  nl ++
  js "<script>window.addEventListener('error',e=>{window.parent.postMessage({type:'I" ++
  js "FRAME_ERROR',message:e.message,stack:e.error&&e.error.stack},'*');});window.ad" ++
  js "dEventListener('unhandledrejection',e=>{window.parent.postMessage({type:'IFRAM" ++
  js "E_ERROR',message:e.reason?e.reason.message||String(e.reason):'Unhandled reject" ++
  js "ion',stack:e.reason&&e.reason.stack},'*');});</script>".

Definition injectApiBridge (htmlContent : jsstring) : jsstring :=
  let headClose := indexOf (toLowerCase htmlContent) (js "</head>") 0 in
  if negb (headClose =? -1) then
    slice htmlContent 0 headClose ++ bridge ++ sliceFrom htmlContent headClose
  else
    let bodyOpen := indexOf (toLowerCase htmlContent) (js "<body") 0 in
    if negb (bodyOpen =? -1) then
      let bodyTagEnd := indexOf htmlContent (js ">") bodyOpen + 1 in
      slice htmlContent 0 bodyTagEnd ++ bridge ++ sliceFrom htmlContent bodyTagEnd
    else bridge ++ htmlContent.

(** *** What the specification says, in its own words

    "inserting immediately before the first closing head marker if present,
    else immediately after the first opening body tag if present, else
    prepending to the whole document", the markers being looked for without
    regard to letter case. *)

(** First index at which [p] begins in [s] when letter case is ignored. *)
Fixpoint findIgnoreCase (p s : jsstring) : option nat :=
  match s with
  | [] => if startsWithIgnoreCase p [] then Some 0%nat else None
  | _ :: t =>
      if startsWithIgnoreCase p s then Some 0%nat
      else option_map S (findIgnoreCase p t)
  end.

(** First index at or after [from] that holds the code unit [c]. *)
Fixpoint findUnitFrom (c : Z) (s : jsstring) (from : nat) : option nat :=
  match s, from with
  | [], _ => None
  | x :: t, O => if x =? c then Some 0%nat else option_map S (findUnitFrom c t 0)
  | _ :: t, S k => option_map S (findUnitFrom c t k)
  end.

(** Where the specification puts the bridge: the number of code units of the
    artifact that come before it.  A body marker that no [>] follows is not
    an opening tag. *)
Definition specInsertionPoint (artifact : jsstring) : nat :=
  match findIgnoreCase (js "</head>") artifact with
  | Some h => h
  | None =>
      match findIgnoreCase (js "<body") artifact with
      | Some b =>
          match findUnitFrom 62 artifact b with
          | Some g => S g
          | None => 0%nat
          end
      | None => 0%nat
      end
  end.

Definition specInject (artifact : jsstring) : jsstring :=
  take (specInsertionPoint artifact) artifact ++ bridge
  ++ drop (specInsertionPoint artifact) artifact.

End Inject.
Import Inject.

(** ** Prompt templates *)

Module Prompt.

Definition isEmpty (s : jsstring) : bool :=
  match s with [] => true | _ => false end.

(** [Boolean(x)] for a value that is a string or [null]. *)
Definition truthy (x : option jsstring) : bool :=
  match x with
  | Some s => negb (isEmpty s)
  | None => false
  end.

(** [[this.originalPrompt, ...this.improvementPrompts].filter(Boolean)] *)
Definition requestHistory (originalPrompt : option jsstring)
    (improvementPrompts : list jsstring) : list jsstring :=
  omap (fun x => if truthy x then x else None)
       (originalPrompt :: map Some improvementPrompts).

Definition bullet : jsstring := [8226].

Definition buildVisualizationPrompt (apiDescription userMessage : jsstring) : jsstring :=
  js "You are an expert front-end engineer who creates data visualizations." ++
  nl ++
  nl ++
  js "USER REQUEST:" ++ nl ++
  [34] ++ userMessage ++ [34] ++ nl ++
  nl ++
  js "AVAILABLE API ENDPOINTS (OpenAPI-like schema):" ++ nl ++
  apiDescription ++ nl ++
  nl ++
  js "TASK:" ++ nl ++
  js "Generate a COMPLETE, self-contained HTML document (including CSS & JavaScript)" ++
  js " that satisfies the user's request by fetching data from the listed API endpoi" ++
  js "nts. Use Chart.js (CDN: https://cdn.jsdelivr.net/npm/chart.js) or native web t" ++
  js "echnologies." ++ nl ++
  nl ++
  js "REQUIREMENTS (IMPORTANT):" ++ nl ++
  bullet ++ js " Return ONLY HTML/JS/CSS code " ++ [8211] ++
  js " no markdown, explanations or extra text." ++ nl ++
  bullet ++ js " Include professional, responsive styling." ++ nl ++
  bullet ++ js " Use the provided global function `apiRequest(url)` for all data calls (see us" ++
  js "age example below)." ++ nl ++
  bullet ++ js " Handle loading states & errors gracefully within the HTML." ++ nl ++
  bullet ++ js " Do NOT violate browser sandbox restrictions." ++ nl ++
  bullet ++ js " Try to use all the available space for the diagram do NOT set max height or w" ++
  js "idth." ++ nl ++
  nl ++
  js "EXAMPLE API USAGE:" ++ nl ++
  js "```js" ++ nl ++
  js "async function loadData() {" ++ nl ++
  js "  const data = await apiRequest('/api/your-endpoint');" ++ nl ++
  js "  console.log(data);" ++ nl ++
  js "}" ++ nl ++
  js "```" ++ nl ++
  nl ++
  js "Return the finished HTML document now.".

Definition buildImprovementPrompt (apiDescription : jsstring)
    (originalPrompt : option jsstring) (improvementPrompts : list jsstring)
    (existingCode : jsstring) : jsstring :=
  let promptHistory := join nl (requestHistory originalPrompt improvementPrompts) in
  js "You are provided with an EXISTING visualization (full HTML) generated earlier " ++
  js "plus the complete history of user requests. Improve the visualization to satis" ++
  js "fy the LATEST request while preserving prior context and functionality." ++
  nl ++
  nl ++
  js "AVAILABLE API ENDPOINTS:" ++ nl ++
  apiDescription ++ nl ++
  nl ++
  js "EXISTING VISUALIZATION CODE START" ++ nl ++
  existingCode ++ nl ++
  js "EXISTING VISUALIZATION CODE END" ++ nl ++
  nl ++
  js "FULL USER REQUEST HISTORY:" ++ nl ++
  promptHistory ++ nl ++
  nl ++
  js "REQUIREMENTS:" ++ nl ++
  bullet ++ js " Return ONLY HTML/JS/CSS code (no explanations)." ++ nl ++
  bullet ++ js " Produce a FULL HTML document that can replace the previous one." ++ nl ++
  bullet ++ js " Continue to use the global `apiRequest(url)` helper for data access." ++ nl ++
  bullet ++ js " Keep styling modern and responsive." ++ nl ++
  bullet ++ js " Gracefully handle loading and error states.".

End Prompt.
Import Prompt.

(** ** The widget *)

Module Widget.

Inductive VisualizationState := IDLE | GENERATING | DISPLAYING | ERROR.

Inductive ErrorType :=
  | CONTAINER_NOT_FOUND | INVALID_API_DESCRIPTION | CHAT_COMPLETION_FAILED
  | API_REQUEST_FAILED | IFRAME_COMMUNICATION_FAILED | INVALID_HTML_RESPONSE.

(** An instance of [Error]: the widget's own class, or any other. *)
Inductive JsError :=
  | AIDataVisualizationError (type : ErrorType) (message : jsstring)
  | PlainError (message : jsstring).

(** What a [throw] or a rejection carries: an [Error], or some other value. *)
Inductive Thrown :=
  | ThrownError (e : JsError)
  | ThrownValue.

Definition messageOf (e : JsError) : jsstring :=
  match e with
  | AIDataVisualizationError _ m => m
  | PlainError m => m
  end.

(** One call of a host callback that returns a promise: the promise is
    fulfilled, or rejected, or the call itself throws. *)
Inductive Outcome (A : Type) :=
  | Resolves (a : A)
  | Rejects (e : Thrown)
  | Throws (e : Thrown).
Arguments Resolves {A} a.
Arguments Rejects {A} e.
Arguments Throws {A} e.

(** How the promise of an [async] method settles. *)
Inductive Settled :=
  | Fulfilled
  | RejectedWith (e : Thrown).

Inductive Theme := light | dark | auto.

Record VisualizationHistoryItem := mkItem {
  prompt : jsstring;
  html : jsstring;
  timestamp : Z
}.

(** [AIDataVisualizationConfig] once validated.  The optional [onError]
    answers [None] when it returns and [Some e] when it throws [e]. *)
Record Config := mkConfig {
  apiDescription : jsstring;
  chatCompletion : jsstring -> Outcome jsstring;
  apiRequest : jsstring -> Outcome jsstring;
  onError : option (JsError -> option Thrown);
  theme : option Theme
}.

(** The elements of the widget's markup that the methods read or write. *)
Record Dom := mkDom {
  textareaValue : jsstring;
  textareaDisabled : bool;
  generateBtnDisabled : bool;
  btnText : jsstring;
  spinnerShown : bool;
  errorShown : bool;
  errorMessage : jsstring;
  visualizationShown : bool;
  clearBtnShown : bool;
  promptSummaryShown : bool;
  promptText : jsstring;
  srcdoc : jsstring
}.

(** A message posted to the sandboxed frame. *)
Inductive ApiResponseData :=
  | ResponseData (requestId : jsstring) (data : jsstring)
  | ResponseError (requestId : jsstring) (error : jsstring).

(** The surroundings of the instance: the record kept under [HISTORY_KEY] in
    [localStorage] (the list itself stands for its JSON text), whether the
    storage currently throws, the clock read by [Date.now()], and what the
    instance has handed to the host and to the frame so far. *)
Record Host := mkHost {
  localStorage : option (list VisualizationHistoryItem);
  storageFails : bool;
  clock : Z;
  reported : list JsError;
  asked : list jsstring;
  fetched : list jsstring;
  posted : list ApiResponseData
}.

(** The fields of the class [AIDataVisualization]. *)
Record Instance := mkInstance {
  config : Config;
  state : VisualizationState;
  iframe : bool;
  lastGeneratedCode : option jsstring;
  originalPrompt : option jsstring;
  improvementPrompts : list jsstring;
  history : list VisualizationHistoryItem;
  activeHistoryIndex : option Z;
  dom : Dom;
  host : Host
}.

(** *** Field updates *)

Class Setter {R F : Type} (proj : R -> F) := setField : (F -> F) -> R -> R.
Arguments setField {R F} proj {_} f r.

Notation "r <| p := v |>" := (setField p (fun _ => v) r)
  (at level 1, left associativity, p at level 0, v at level 200).
Notation "r <| p ::= f |>" := (setField p f r)
  (at level 1, left associativity, p at level 0, f at level 200).

#[global] Instance set_textareaValue : Setter textareaValue := fun f d =>
  mkDom (f (textareaValue d)) (textareaDisabled d) (generateBtnDisabled d) (btnText d)
    (spinnerShown d) (errorShown d) (errorMessage d) (visualizationShown d)
    (clearBtnShown d) (promptSummaryShown d) (promptText d) (srcdoc d).
#[global] Instance set_textareaDisabled : Setter textareaDisabled := fun f d =>
  mkDom (textareaValue d) (f (textareaDisabled d)) (generateBtnDisabled d) (btnText d)
    (spinnerShown d) (errorShown d) (errorMessage d) (visualizationShown d)
    (clearBtnShown d) (promptSummaryShown d) (promptText d) (srcdoc d).
#[global] Instance set_generateBtnDisabled : Setter generateBtnDisabled := fun f d =>
  mkDom (textareaValue d) (textareaDisabled d) (f (generateBtnDisabled d)) (btnText d)
    (spinnerShown d) (errorShown d) (errorMessage d) (visualizationShown d)
    (clearBtnShown d) (promptSummaryShown d) (promptText d) (srcdoc d).
#[global] Instance set_btnText : Setter btnText := fun f d =>
  mkDom (textareaValue d) (textareaDisabled d) (generateBtnDisabled d) (f (btnText d))
    (spinnerShown d) (errorShown d) (errorMessage d) (visualizationShown d)
    (clearBtnShown d) (promptSummaryShown d) (promptText d) (srcdoc d).
#[global] Instance set_spinnerShown : Setter spinnerShown := fun f d =>
  mkDom (textareaValue d) (textareaDisabled d) (generateBtnDisabled d) (btnText d)
    (f (spinnerShown d)) (errorShown d) (errorMessage d) (visualizationShown d)
    (clearBtnShown d) (promptSummaryShown d) (promptText d) (srcdoc d).
#[global] Instance set_errorShown : Setter errorShown := fun f d =>
  mkDom (textareaValue d) (textareaDisabled d) (generateBtnDisabled d) (btnText d)
    (spinnerShown d) (f (errorShown d)) (errorMessage d) (visualizationShown d)
    (clearBtnShown d) (promptSummaryShown d) (promptText d) (srcdoc d).
#[global] Instance set_errorMessage : Setter errorMessage := fun f d =>
  mkDom (textareaValue d) (textareaDisabled d) (generateBtnDisabled d) (btnText d)
    (spinnerShown d) (errorShown d) (f (errorMessage d)) (visualizationShown d)
    (clearBtnShown d) (promptSummaryShown d) (promptText d) (srcdoc d).
#[global] Instance set_visualizationShown : Setter visualizationShown := fun f d =>
  mkDom (textareaValue d) (textareaDisabled d) (generateBtnDisabled d) (btnText d)
    (spinnerShown d) (errorShown d) (errorMessage d) (f (visualizationShown d))
    (clearBtnShown d) (promptSummaryShown d) (promptText d) (srcdoc d).
#[global] Instance set_clearBtnShown : Setter clearBtnShown := fun f d =>
  mkDom (textareaValue d) (textareaDisabled d) (generateBtnDisabled d) (btnText d)
    (spinnerShown d) (errorShown d) (errorMessage d) (visualizationShown d)
    (f (clearBtnShown d)) (promptSummaryShown d) (promptText d) (srcdoc d).
#[global] Instance set_promptSummaryShown : Setter promptSummaryShown := fun f d =>
  mkDom (textareaValue d) (textareaDisabled d) (generateBtnDisabled d) (btnText d)
    (spinnerShown d) (errorShown d) (errorMessage d) (visualizationShown d)
    (clearBtnShown d) (f (promptSummaryShown d)) (promptText d) (srcdoc d).
#[global] Instance set_promptText : Setter promptText := fun f d =>
  mkDom (textareaValue d) (textareaDisabled d) (generateBtnDisabled d) (btnText d)
    (spinnerShown d) (errorShown d) (errorMessage d) (visualizationShown d)
    (clearBtnShown d) (promptSummaryShown d) (f (promptText d)) (srcdoc d).
#[global] Instance set_srcdoc : Setter srcdoc := fun f d =>
  mkDom (textareaValue d) (textareaDisabled d) (generateBtnDisabled d) (btnText d)
    (spinnerShown d) (errorShown d) (errorMessage d) (visualizationShown d)
    (clearBtnShown d) (promptSummaryShown d) (promptText d) (f (srcdoc d)).

#[global] Instance set_localStorage : Setter localStorage := fun f h =>
  mkHost (f (localStorage h)) (storageFails h) (clock h) (reported h) (asked h)
    (fetched h) (posted h).
#[global] Instance set_storageFails : Setter storageFails := fun f h =>
  mkHost (localStorage h) (f (storageFails h)) (clock h) (reported h) (asked h)
    (fetched h) (posted h).
#[global] Instance set_clock : Setter clock := fun f h =>
  mkHost (localStorage h) (storageFails h) (f (clock h)) (reported h) (asked h)
    (fetched h) (posted h).
#[global] Instance set_reported : Setter reported := fun f h =>
  mkHost (localStorage h) (storageFails h) (clock h) (f (reported h)) (asked h)
    (fetched h) (posted h).
#[global] Instance set_asked : Setter asked := fun f h =>
  mkHost (localStorage h) (storageFails h) (clock h) (reported h) (f (asked h))
    (fetched h) (posted h).
#[global] Instance set_fetched : Setter fetched := fun f h =>
  mkHost (localStorage h) (storageFails h) (clock h) (reported h) (asked h)
    (f (fetched h)) (posted h).
#[global] Instance set_posted : Setter posted := fun f h =>
  mkHost (localStorage h) (storageFails h) (clock h) (reported h) (asked h)
    (fetched h) (f (posted h)).

#[global] Instance set_theme : Setter theme := fun f c =>
  mkConfig (apiDescription c) (chatCompletion c) (apiRequest c) (onError c) (f (theme c)).

#[global] Instance set_config : Setter config := fun f s =>
  mkInstance (f (config s)) (state s) (iframe s) (lastGeneratedCode s) (originalPrompt s)
    (improvementPrompts s) (history s) (activeHistoryIndex s) (dom s) (host s).
#[global] Instance set_iframe : Setter iframe := fun f s =>
  mkInstance (config s) (state s) (f (iframe s)) (lastGeneratedCode s) (originalPrompt s)
    (improvementPrompts s) (history s) (activeHistoryIndex s) (dom s) (host s).
#[global] Instance set_lastGeneratedCode : Setter lastGeneratedCode := fun f s =>
  mkInstance (config s) (state s) (iframe s) (f (lastGeneratedCode s)) (originalPrompt s)
    (improvementPrompts s) (history s) (activeHistoryIndex s) (dom s) (host s).
#[global] Instance set_originalPrompt : Setter originalPrompt := fun f s =>
  mkInstance (config s) (state s) (iframe s) (lastGeneratedCode s) (f (originalPrompt s))
    (improvementPrompts s) (history s) (activeHistoryIndex s) (dom s) (host s).
#[global] Instance set_improvementPrompts : Setter improvementPrompts := fun f s =>
  mkInstance (config s) (state s) (iframe s) (lastGeneratedCode s) (originalPrompt s)
    (f (improvementPrompts s)) (history s) (activeHistoryIndex s) (dom s) (host s).
#[global] Instance set_history : Setter history := fun f s =>
  mkInstance (config s) (state s) (iframe s) (lastGeneratedCode s) (originalPrompt s)
    (improvementPrompts s) (f (history s)) (activeHistoryIndex s) (dom s) (host s).
#[global] Instance set_activeHistoryIndex : Setter activeHistoryIndex := fun f s =>
  mkInstance (config s) (state s) (iframe s) (lastGeneratedCode s) (originalPrompt s)
    (improvementPrompts s) (history s) (f (activeHistoryIndex s)) (dom s) (host s).
#[global] Instance set_dom : Setter dom := fun f s =>
  mkInstance (config s) (state s) (iframe s) (lastGeneratedCode s) (originalPrompt s)
    (improvementPrompts s) (history s) (activeHistoryIndex s) (f (dom s)) (host s).
#[global] Instance set_host : Setter host := fun f s =>
  mkInstance (config s) (state s) (iframe s) (lastGeneratedCode s) (originalPrompt s)
    (improvementPrompts s) (history s) (activeHistoryIndex s) (dom s) (f (host s)).

(** No method of the class assigns the field [state]; it has no [Setter]. *)

(** *** Statements that may throw *)

Inductive Completion (A : Type) :=
  | Normal (a : A) (s : Instance)
  | Abrupt (e : Thrown) (s : Instance).
Arguments Normal {A} a s.
Arguments Abrupt {A} e s.

Definition M (A : Type) := Instance -> Completion A.

Definition ret {A} (a : A) : M A := fun s => Normal a s.

Definition bind {A B} (m : M A) (k : A -> M B) : M B := fun s =>
  match m s with
  | Normal a s' => k a s'
  | Abrupt e s' => Abrupt e s'
  end.

Definition throw {A} (e : Thrown) : M A := fun s => Abrupt e s.

Definition tryCatch {A} (body : M A) (handler : Thrown -> M A) : M A := fun s =>
  match body s with
  | Normal a s' => Normal a s'
  | Abrupt e s' => handler e s'
  end.

Definition get : M Instance := fun s => Normal s s.

Definition update (f : Instance -> Instance) : M unit := fun s => Normal tt (f s).

(** [await p]: a rejection, like a throw of the call, surfaces as a throw. *)
Definition await {A} (p : Outcome A) : M A :=
  match p with
  | Resolves a => ret a
  | Rejects e => throw e
  | Throws e => throw e
  end.

(** An [async] method: its promise is fulfilled when the body completes and
    rejected when the body throws. *)
Definition async (body : M unit) (s : Instance) : Settled * Instance :=
  match body s with
  | Normal _ s' => (Fulfilled, s')
  | Abrupt e s' => (RejectedWith e, s')
  end.

(** A method that does not throw: the instance it leaves. *)
Definition run (body : M unit) (s : Instance) : Instance :=
  match body s with
  | Normal _ s' => s'
  | Abrupt _ s' => s'
  end.

Declare Scope widget_scope.
Delimit Scope widget_scope with widget.
Notation "x <- m ;; k" := (bind m (fun x => k))
  (at level 100, m at next level, right associativity) : widget_scope.
Notation "m ;; k" := (bind m (fun _ => k))
  (at level 100, right associativity) : widget_scope.
Local Open Scope widget_scope.

(** *** Private helpers of the class *)

(** [setState]: repaints the generate button, its spinner and the text area.
    The body of the method in the source ends with the [switch]; the field
    [this.state] is not written. *)
Definition setState (st : VisualizationState) : M unit :=
  update (fun s =>
    let empty := isEmpty (trim (textareaValue (dom s))) in
    s <| dom ::= fun d =>
      match st with
      | GENERATING =>
          d <| generateBtnDisabled := true |> <| btnText := js "Generating..." |>
            <| spinnerShown := true |> <| textareaDisabled := true |>
      | DISPLAYING =>
          d <| generateBtnDisabled := empty |> <| btnText := js "Improve Visualization" |>
            <| spinnerShown := false |> <| textareaDisabled := false |>
      | IDLE | ERROR =>
          d <| generateBtnDisabled := empty |> <| btnText := js "Generate Visualization" |>
            <| spinnerShown := false |> <| textareaDisabled := false |>
      end |>).

Definition showError (msg : jsstring) : M unit :=
  update (fun s => s <| dom ::= fun d => d <| errorMessage := msg |> <| errorShown := true |> |>).

Definition hideError : M unit :=
  update (fun s => s <| dom ::= fun d => d <| errorShown := false |> |>).

Definition displayVisualization (htmlContent : jsstring) : M unit :=
  update (fun s =>
    s <| dom ::= fun d =>
           d <| visualizationShown := true |> <| clearBtnShown := true |>
             <| srcdoc := injectApiBridge htmlContent |> |>
      <| iframe := true |>).

(** [try { localStorage.setItem(KEY, JSON.stringify(this.history)) } catch {}] *)
Definition persist : M unit :=
  update (fun s =>
    if storageFails (host s) then s
    else s <| host ::= fun h => h <| localStorage := Some (history s) |> |>).

Definition saveHistory (item : VisualizationHistoryItem) : M unit :=
  update (fun s => s <| history ::= fun h => take 10 (item :: h) |>) ;;
  persist.

Definition inRange (idx : Z) (h : list VisualizationHistoryItem) : bool :=
  negb ((idx <? 0) || (Z.of_nat (length h) <=? idx)).

Definition replaceHistory (idx : Z) (item : VisualizationHistoryItem) : M unit :=
  s <- get ;;
  if inRange idx (history s) then
    update (fun s => s <| history ::= fun h => <[Z.to_nat idx := item]> h |>) ;;
    persist
  else ret tt.

Definition removeHistory (idx : Z) : M unit :=
  s <- get ;;
  if inRange idx (history s) then
    update (fun s => s <| history ::= fun h => delete (Z.to_nat idx) h |>) ;;
    persist
  else ret tt.

Definition clearHistory : M unit :=
  update (fun s => s <| history := [] |> <| activeHistoryIndex := None |>) ;;
  update (fun s =>
    if storageFails (host s) then s
    else s <| host ::= fun h => h <| localStorage := None |> |>).

(** [try { const raw = localStorage.getItem(KEY); if (raw) this.history =
    JSON.parse(raw); } catch {}] *)
Definition loadHistory : M unit :=
  update (fun s =>
    if storageFails (host s) then s
    else match localStorage (host s) with
         | Some items => s <| history := items |>
         | None => s
         end).

(** [this.config.chatCompletion(prompt)], the prompt noted on the host side. *)
Definition callChatCompletion (p : jsstring) : M jsstring :=
  update (fun s => s <| host ::= fun h => h <| asked ::= fun l => l ++ [p] |> |>) ;;
  s <- get ;;
  await (chatCompletion (config s) p).

(** [if (this.config.onError) this.config.onError(e)] *)
Definition callOnError (e : JsError) : M unit :=
  s <- get ;;
  match onError (config s) with
  | None => ret tt
  | Some f =>
      update (fun s => s <| host ::= fun h => h <| reported ::= fun l => l ++ [e] |> |>) ;;
      match f e with
      | None => ret tt
      | Some t => throw t
      end
  end.

(** [renderHistoryList] rebuilds the list element from [this.history]; it
    writes nothing that a method reads back and is left out, as are the
    style sheet, the API overview and the collapsing of the input section. *)

(** *** [generateVisualization] *)

(** The test that picks the template. *)
Definition isImprovement (s : Instance) : bool :=
  match lastGeneratedCode s, state s with
  | Some _, DISPLAYING => true
  | _, _ => false
  end.

Definition emptyResponse : Thrown :=
  ThrownError (AIDataVisualizationError INVALID_HTML_RESPONSE (js "AI returned empty response")).

(** The [try] block up to the call of the completion function, for the
    trimmed text [message]: whether this is an improvement, and the prompt. *)
Definition beforeCompletion (message : jsstring) : M (bool * jsstring) :=
  s0 <- get ;;
  let improving := isImprovement s0 in
  (if improving
   then update (fun s => s <| improvementPrompts ::= fun l => l ++ [message] |>)
   else update (fun s => s <| originalPrompt := Some message |> <| improvementPrompts := [] |>)) ;;
  setState GENERATING ;;
  hideError ;;
  s1 <- get ;;
  let prompt :=
    if improving
    then buildImprovementPrompt (apiDescription (config s1)) (originalPrompt s1)
           (improvementPrompts s1) (default [] (lastGeneratedCode s1))
    else buildVisualizationPrompt (apiDescription (config s1)) message in
  ret (improving, prompt).

(** The [try] block once the completion function has answered. *)
Definition afterCompletion (message : jsstring) (improving : bool)
    (htmlResponse : jsstring) : M unit :=
  let htmlResponse := sanitizeHtmlResponse htmlResponse in
  if isEmpty htmlResponse || isEmpty (trim htmlResponse) then throw emptyResponse
  else
    displayVisualization htmlResponse ;;
    update (fun s => s <| lastGeneratedCode := Some htmlResponse |>) ;;
    update (fun s =>
      s <| dom ::= fun d =>
        d <| promptText := join nl (requestHistory (originalPrompt s) (improvementPrompts s)) |>
          <| promptSummaryShown := true |>
          <| textareaValue := [] |> |>) ;;
    s2 <- get ;;
    let historyItem :=
      mkItem (if truthy (originalPrompt s2) then default [] (originalPrompt s2) else message)
             htmlResponse (clock (host s2)) in
    (match improving, activeHistoryIndex s2 with
     | true, Some idx => replaceHistory idx historyItem
     | _, _ =>
         saveHistory historyItem ;;
         update (fun s => s <| activeHistoryIndex := Some 0 |>)
     end) ;;
    setState DISPLAYING.

(** The body of the [try] block.  The continuation after the [await] runs
    as soon as the completion function has answered: no other event of the
    page is interleaved here. *)
Definition generateBody (message : jsstring) : M unit :=
  choice <- beforeCompletion message ;;
  htmlResponse <- callChatCompletion (snd choice) ;;
  afterCompletion message (fst choice) htmlResponse.

(** The [catch] block. *)
Definition generateCatch (error : Thrown) : M unit :=
  setState ERROR ;;
  let errorMessage :=
    match error with
    | ThrownError e => messageOf e
    | ThrownValue => js "Failed to generate visualization"
    end in
  showError errorMessage ;;
  callOnError (match error with
               | ThrownError e => e
               | ThrownValue => PlainError errorMessage
               end).

Definition generateVisualizationBody : M unit :=
  s <- get ;;
  let message := trim (textareaValue (dom s)) in
  if isEmpty message then showError (js "Please enter a visualization request")
  else tryCatch (generateBody message) generateCatch.

Definition generateVisualization : Instance -> Settled * Instance :=
  async generateVisualizationBody.

(** *** The other public methods *)

Definition clearVisualization : M unit :=
  update (fun s => s <| dom ::= fun d =>
    d <| visualizationShown := false |> <| clearBtnShown := false |> |>) ;;
  setState IDLE ;;
  hideError ;;
  update (fun s => if iframe s then s <| dom ::= fun d => d <| srcdoc := [] |> |> else s) ;;
  update (fun s => s <| iframe := false |>) ;;
  update (fun s =>
    s <| lastGeneratedCode := None |> <| activeHistoryIndex := None |>
      <| originalPrompt := None |> <| improvementPrompts := [] |>) ;;
  update (fun s => s <| dom ::= fun d =>
    d <| promptSummaryShown := false |> <| promptText := [] |> |>).

Definition getState (s : Instance) : VisualizationState := state s.

Definition setTheme (t : Theme) : M unit :=
  update (fun s => s <| config ::= fun c => c <| theme := Some t |> |>).

(** *** Event handlers *)

(** A click on the entry [index] of the history list. *)
Definition selectHistory (index : Z) : M unit :=
  s <- get ;;
  if inRange index (history s) then
    match history s !! Z.to_nat index with
    | Some item =>
        update (fun s => s <| activeHistoryIndex := Some index |>) ;;
        displayVisualization (html item) ;;
        update (fun s => s <| dom ::= fun d =>
          d <| textareaValue := [] |> <| promptText := prompt item |>
            <| promptSummaryShown := true |> |>) ;;
        update (fun s =>
          s <| originalPrompt := Some (prompt item) |> <| improvementPrompts := [] |>
            <| lastGeneratedCode := Some (html item) |>) ;;
        setState DISPLAYING
    | None => ret tt
    end
  else ret tt.

(** The [input] event of the text area, the user having made its value
    [text]. *)
Definition textareaInput (text : jsstring) : M unit :=
  update (fun s => s <| dom ::= fun d => d <| textareaValue := text |> |>) ;;
  update (fun s => s <| dom ::= fun d =>
    d <| generateBtnDisabled :=
           isEmpty (trim text)
           || match state s with GENERATING => true | _ => false end |> |>).

(** What a [message] event carries. *)
Inductive IframeMessage :=
  | ApiRequest (requestId url : jsstring)
  | IframeError (message : jsstring)
  | OtherMessage.

Definition sendMessageToIframe (m : ApiResponseData) : M unit :=
  update (fun s =>
    if iframe s then s <| host ::= fun h => h <| posted ::= fun l => l ++ [m] |> |> else s).

Definition handleApiRequestBody (requestId url : jsstring) : M unit :=
  tryCatch
    (update (fun s => s <| host ::= fun h => h <| fetched ::= fun l => l ++ [url] |> |>) ;;
     s <- get ;;
     response <- await (apiRequest (config s) url) ;;
     sendMessageToIframe (ResponseData requestId response))
    (fun error =>
       sendMessageToIframe
         (ResponseError requestId
            match error with
            | ThrownError e => messageOf e
            | ThrownValue => js "API request failed"
            end)).

Definition handleApiRequest (requestId url : jsstring) : Instance -> Settled * Instance :=
  async (handleApiRequestBody requestId url).

(** The [message] listener; [fromFrame] says that the event's source is the
    window of the frame the instance currently holds. *)
Definition messageListener (fromFrame : bool) (data : IframeMessage) : M unit :=
  s <- get ;;
  if negb (iframe s && fromFrame) then ret tt
  else
    match data with
    | ApiRequest requestId url =>
        if negb (isEmpty requestId) && negb (isEmpty url)
        then update (fun s => snd (handleApiRequest requestId url s))
        else ret tt
    | IframeError message =>
        let m := if isEmpty message then js "Visualization error" else message in
        setState ERROR ;;
        showError m ;;
        callOnError (PlainError m)
    | OtherMessage => ret tt
    end.

(** *** Construction *)

(** The configuration as the host passes it: [container] is the selector,
    one the browser can parse, and [containerFound] says whether
    [document.querySelector] finds an element for it (an element passed
    directly counts as found).  A selector that is no selector at all, for
    which [querySelector] itself throws, is not a configuration of this
    model. *)
Record RawConfig := mkRawConfig {
  container : jsstring;
  containerFound : bool;
  rawApiDescription : jsstring;
  rawChatCompletion : option (jsstring -> Outcome jsstring);
  rawApiRequest : option (jsstring -> Outcome jsstring);
  rawOnError : option (JsError -> option Thrown);
  rawTheme : option Theme
}.

Definition initialDom : Dom :=
  mkDom [] false true (js "Generate Visualization") false false [] false false false [] [].

Definition freshHost (stored : option (list VisualizationHistoryItem))
    (fails : bool) (now : Z) : Host :=
  mkHost stored fails now [] [] [] [].

(** [new AIDataVisualization(config)]: the configuration fault thrown, or the
    instance after [initialize]. *)
Definition create (raw : RawConfig) (h : Host) : JsError + Instance :=
  if negb (containerFound raw) then
    inl (AIDataVisualizationError CONTAINER_NOT_FOUND
           (js "Container element not found: " ++ container raw))
  else if isEmpty (rawApiDescription raw) then
    inl (AIDataVisualizationError INVALID_API_DESCRIPTION (js "API description is required"))
  else
    match rawChatCompletion raw, rawApiRequest raw with
    | None, _ =>
        inl (AIDataVisualizationError CHAT_COMPLETION_FAILED
               (js "chatCompletion must be a function"))
    | Some _, None =>
        inl (AIDataVisualizationError API_REQUEST_FAILED (js "apiRequest must be a function"))
    | Some chat, Some req =>
        inr (run loadHistory
               (mkInstance (mkConfig (rawApiDescription raw) chat req (rawOnError raw)
                              (rawTheme raw))
                  IDLE false None None [] [] None initialDom h))
    end.

(** *** What can happen to an instance

    The public methods, the handlers of the widget's own controls, the
    [message] listener, and changes on the host side.  [destroy] empties the
    container and ends the life of the instance; it is not an action. *)

Inductive Action :=
  | Generate
  | Clear
  | SetTheme (t : Theme)
  | TextareaInput (text : jsstring)
  | SelectHistory (index : Z)
  | RemoveHistory (index : Z)
  | ClearHistory
  | Message (fromFrame : bool) (data : IframeMessage)
  | HostChange (stored : option (list VisualizationHistoryItem)) (fails : bool) (now : Z).

Definition perform (a : Action) (s : Instance) : Instance :=
  match a with
  | Generate => snd (generateVisualization s)
  | Clear => run clearVisualization s
  | SetTheme t => run (setTheme t) s
  | TextareaInput text => run (textareaInput text) s
  | SelectHistory i => run (selectHistory i) s
  | RemoveHistory i => run (removeHistory i) s
  | ClearHistory => run clearHistory s
  | Message f d => run (messageListener f d) s
  | HostChange stored fails now =>
      s <| host ::= fun h =>
        h <| localStorage := stored |> <| storageFails := fails |> <| clock := now |> |>
  end.

(** The instances the class can be in: built by [create], then driven by the
    user, the frame and the host. *)
Inductive reachable : Instance -> Prop :=
  | reachable_create raw h s : create raw h = inr s -> reachable s
  | reachable_perform a s : reachable s -> reachable (perform a s).

End Widget.
Import Widget.

(** ** The bridge client inside the frame *)

Module BridgeClient.

(** [e.data] of a [message] event in the frame, when it is an object. *)
Record MessageData := mkMessageData {
  mtype : jsstring;
  mrequestId : jsstring;
  merror : option jsstring;
  mdata : jsstring
}.

Inductive PromiseState :=
  | Pending
  | FulfilledWith (data : jsstring)
  | RejectedMessage (message : jsstring).

(** One call of [window.apiRequest(u)]: the correlation id, whether the
    listener [h] is registered, the promise, and the delay of the timer while
    its callback has not run. *)
Record Request := mkRequest {
  id : jsstring;
  listening : bool;
  promise : PromiseState;
  timer : option Z
}.

(** [res] and [rej] act on a pending promise only. *)
Definition settle (p outcome : PromiseState) : PromiseState :=
  match p with
  | Pending => outcome
  | _ => p
  end.

Fixpoint sameString (a b : jsstring) : bool :=
  match a, b with
  | [], [] => true
  | x :: a', y :: b' => (x =? y) && sameString a' b'
  | _, _ => false
  end.

(** [d && d.type === 'API_RESPONSE' && d.requestId === id] *)
Definition answers (r : Request) (d : option MessageData) : bool :=
  match d with
  | Some m => sameString (mtype m) (js "API_RESPONSE") && sameString (mrequestId m) (id r)
  | None => false
  end.

(** The listener [h]. *)
Definition h (d : option MessageData) (r : Request) : Request :=
  if answers r d then
    match d with
    | Some m =>
        mkRequest (id r) false
          (settle (promise r)
             (if truthy (merror m) then RejectedMessage (default [] (merror m))
              else FulfilledWith (mdata m)))
          (timer r)
    | None => r
    end
  else r.

(** The callback handed to [setTimeout]. *)
Definition timeoutCallback (r : Request) : Request :=
  mkRequest (id r) false
    (settle (promise r) (RejectedMessage (js "API request timeout"))) None.

(** [window.apiRequest(u)] up to the return of the promise: the request and
    the message posted to the parent.  [stamp] is the text of [Date.now()]
    and [random] that of [Math.random().toString(36).substr(2,9)]. *)
Definition apiRequest (stamp random u : jsstring) : Request * IframeMessage :=
  let id := js "req_" ++ stamp ++ js "_" ++ random in
  (mkRequest id true Pending (Some 30000), ApiRequest id u).

(** What the event loop of the frame hands to the request afterwards. *)
Inductive Event :=
  | MessageEvent (d : option MessageData)
  | TimerFires.

Definition step (r : Request) (e : Event) : Request :=
  match e with
  | MessageEvent d => if listening r then h d r else r
  | TimerFires =>
      match timer r with
      | Some _ => timeoutCallback r
      | None => r
      end
  end.

Definition runEvents (r : Request) (es : list Event) : Request := fold_left step es r.

(** The event is a response that carries the id of the request. *)
Definition isAnswer (r : Request) (e : Event) : bool :=
  match e with
  | MessageEvent d => answers r d
  | TimerFires => false
  end.

(** The request once its timer has fired with the promise still pending. *)
Definition timedOut (r : Request) : Request :=
  mkRequest (id r) false (RejectedMessage (js "API request timeout")) None.

End BridgeClient.

(** ** Notions used in the statements *)

(** However [m] completes, the instance it leaves is related by [R] to the
    one it started from. *)
Definition keeps (R : Instance -> Instance -> Prop) {A} (m : M A) : Prop :=
  forall s, match m s with Normal _ s' => R s s' | Abrupt _ s' => R s s' end.

Definition sameState (s s' : Instance) : Prop := state s' = state s.

Definition sameConfig (s s' : Instance) : Prop := config s' = config s.

(** Nothing new was handed to the completion function. *)
Definition sameAsked (s s' : Instance) : Prop := asked (host s') = asked (host s).

(** Every stored improvement prompt is a non-empty text. *)
Definition promptsNonEmpty (s : Instance) : Prop :=
  forallb (fun p => negb (isEmpty p)) (improvementPrompts s) = true.

Definition keepsPrompts (s s' : Instance) : Prop :=
  promptsNonEmpty s -> promptsNonEmpty s'.

(** The prompt [generateVisualization] builds for the trimmed text [message]
    when it starts from [s]. *)
Definition chosenPrompt (message : jsstring) (s : Instance) : jsstring :=
  if isImprovement s
  then buildImprovementPrompt (apiDescription (config s)) (originalPrompt s)
         (improvementPrompts s ++ [message]) (default [] (lastGeneratedCode s))
  else buildVisualizationPrompt (apiDescription (config s)) message.

(** The two templates are told apart by their opening words. *)
Definition isImprovementTemplate (p : jsstring) : bool :=
  startsWith (js "You are provided with an EXISTING visualization") p.

Definition isFreshTemplate (p : jsstring) : bool :=
  startsWith (js "You are an expert front-end engineer") p.

(** The fault callback is absent, or returns whatever it is given. *)
Definition onErrorReturns (c : Config) : Prop :=
  match onError c with
  | None => True
  | Some f => forall e, f e = None
  end.

(** How a call of the completion function fails, if it does: by a rejection
    or a throw, or by an answer that is blank once cleaned. *)
Definition failureOf (answer : Outcome jsstring) : option Thrown :=
  match answer with
  | Resolves r =>
      if isEmpty (sanitizeHtmlResponse r) || isEmpty (trim (sanitizeHtmlResponse r))
      then Some emptyResponse else None
  | Rejects e => Some e
  | Throws e => Some e
  end.

(** What the [catch] block shows and reports for a thrown value. *)
Definition shownMessage (e : Thrown) : jsstring :=
  match e with
  | ThrownError e => messageOf e
  | ThrownValue => js "Failed to generate visualization"
  end.

Definition reportedError (e : Thrown) : JsError :=
  match e with
  | ThrownError e => e
  | ThrownValue => PlainError (js "Failed to generate visualization")
  end.

(** *** A host for the scenarios of the specification *)

Definition demoDoc : jsstring := js "<html><body>chart</body></html>".

(** A valid configuration whose completion function always behaves as
    [answer]; the durable store is empty and works. *)
Definition demoRaw (answer : Outcome jsstring)
    (onErr : option (JsError -> option Thrown)) : RawConfig :=
  mkRawConfig (js "#viz") true (js "{}") (Some (fun _ => answer))
    (Some (fun _ => Resolves (js "[]"))) onErr None.

Definition demoHost : Host := freshHost None false 1000.

(** What [create] returns for [demoRaw]. *)
Definition demoCreated (answer : Outcome jsstring)
    (onErr : option (JsError -> option Thrown)) : Instance :=
  mkInstance (mkConfig (js "{}") (fun _ => answer) (fun _ => Resolves (js "[]")) onErr None)
    IDLE false None None [] [] None initialDom demoHost.

(** That instance once the user has typed a request. *)
Definition demoTyped (answer : Outcome jsstring)
    (onErr : option (JsError -> option Thrown)) : Instance :=
  perform (TextareaInput (js "sales by region")) (demoCreated answer onErr).

(** An instance as the specification pictures it after a first generation and
    a new request typed in: the field [state] holds [DISPLAYING]. *)
Definition demoDisplaying : Instance :=
  mkInstance (mkConfig (js "{}") (fun _ => Resolves demoDoc) (fun _ => Resolves (js "[]")) None None)
    DISPLAYING true (Some demoDoc) (Some (js "sales by region")) []
    [mkItem (js "sales by region") demoDoc 1000] (Some 0)
    (mkDom (js "as a pie chart") false false (js "Improve Visualization") false false []
       true true true (js "sales by region") (injectApiBridge demoDoc))
    demoHost.

(** The requests of the conversation in order: the original one, if any, then
    the improvements. *)
Definition requestList (originalPrompt : option jsstring)
    (improvementPrompts : list jsstring) : list jsstring :=
  match originalPrompt with
  | Some o => o :: improvementPrompts
  | None => improvementPrompts
  end.

(** Entries saved one after the other, the first of the list first. *)
Definition saveAll (items : list VisualizationHistoryItem) (s : Instance) : Instance :=
  fold_left (fun s item => run (saveHistory item) s) items s.

(** Answers that are empty once cleaned: the empty string, white space, a
    pair of fence markers with nothing between them. *)
Definition blankAnswers : list jsstring :=
  [ []; js "  " ++ nl; js "```html" ++ nl ++ js "```" ].

Definition rethrow : option (JsError -> option Thrown) :=
  Some (fun e => Some (ThrownError e)).

Definition quiet : option (JsError -> option Thrown) :=
  Some (fun _ => None).

(** The artifact holds no U+0130, the code unit whose lower-case form is two
    code units long. *)
Definition noDottedCapitalI (s : jsstring) : bool := forallb (fun c => negb (c =? 304)) s.

(** The lower-case form of a code unit other than U+0130. *)
Definition lowerOne (c : Z) : Z :=
  if (65 <=? c) && (c <=? 90) then c + 32 else if c =? 8490 then 107 else c.

(** The code units of the needles ["</head>"], ["<body"] and [">"]. *)
Definition needleUnit (q : Z) : bool :=
  (q =? 60) || (q =? 47) || (q =? 62) || (q =? 104) || (q =? 101) || (q =? 97)
  || (q =? 100) || (q =? 98) || (q =? 111) || (q =? 121).

(** Events for a request of the bridge client: a message that is not an
    object, a response to another request, and a late response to this one. *)
Definition demoRequest : BridgeClient.Request :=
  fst (BridgeClient.apiRequest (js "1700000000000") (js "k3j9x0q2a") (js "/api/x")).

Definition demoBefore : list BridgeClient.Event :=
  [ BridgeClient.MessageEvent None;
    BridgeClient.MessageEvent
      (Some (BridgeClient.mkMessageData (js "API_RESPONSE") (js "req_1_other") None (js "{}"))) ].

Definition demoLate : list BridgeClient.Event :=
  [ BridgeClient.MessageEvent
      (Some (BridgeClient.mkMessageData (js "API_RESPONSE")
               (js "req_1700000000000_k3j9x0q2a") None (js "{}"))) ].

(** ** Notions used in the further properties *)

(** What [loadHistory] reads from the host: nothing when the storage throws or
    holds no record. *)
Definition storedHistory (h : Host) : list VisualizationHistoryItem :=
  if storageFails h then [] else default [] (localStorage h).

(** The storage works and a reload would give the history now in memory. *)
Definition inStep (s : Instance) : Prop :=
  storageFails (host s) = false /\ storedHistory (host s) = history s.

Definition staysInStep (s s' : Instance) : Prop := inStep s -> inStep s'.

(** The storage throws and its record is left as it was. *)
Definition recordUntouched (s s' : Instance) : Prop :=
  storageFails (host s) = true ->
  storageFails (host s') = true /\ localStorage (host s') = localStorage (host s).

(** A history within the bound of ten entries stays within it. *)
Definition withinBound (s s' : Instance) : Prop :=
  (length (history s) <= 10)%nat -> (length (history s') <= 10)%nat.

(** A run of actions, the first of the list first. *)
Definition performAll (actions : list Action) (s : Instance) : Instance :=
  fold_left (fun s a => perform a s) actions s.

Definition isHostChange (a : Action) : bool :=
  match a with HostChange _ _ _ => true | _ => false end.

(** An instance nothing has happened to yet. *)
Definition pristine (c : Config) (h : Host) (items : list VisualizationHistoryItem) : Instance :=
  mkInstance c IDLE false None None [] items None initialDom h.


(** The text the fetch relay sends back for a fault of the fetch function. *)
Definition apiFailureText (e : Thrown) : jsstring :=
  match e with
  | ThrownError e => messageOf e
  | ThrownValue => js "API request failed"
  end.

(** The response the relay posts for an outcome of the fetch function. *)
Definition relayed (requestId : jsstring) (o : Outcome jsstring) : ApiResponseData :=
  match o with
  | Resolves d => ResponseData requestId d
  | Rejects e => ResponseError requestId (apiFailureText e)
  | Throws e => ResponseError requestId (apiFailureText e)
  end.

(** The text shown and reported for a fault message of the frame. *)
Definition frameFaultText (message : jsstring) : jsstring :=
  if isEmpty message then js "Visualization error" else message.

(** The instance at the moment [generateVisualization], started from [s] with
    the trimmed text [message], has called the completion function: the
    prompts are noted, the controls show the generating look, the error box
    is hidden. *)
Definition asking (message : jsstring) (s : Instance) : Instance :=
  (if isImprovement s
   then s <| improvementPrompts ::= fun l => l ++ [message] |>
   else s <| originalPrompt := Some message |> <| improvementPrompts := [] |>)
    <| dom ::= fun d =>
         d <| generateBtnDisabled := true |> <| btnText := js "Generating..." |>
           <| spinnerShown := true |> <| textareaDisabled := true |>
           <| errorShown := false |> |>
    <| host ::= fun h => h <| asked ::= fun l => l ++ [chosenPrompt message s] |> |>.

(** The answer of the completion function, once cleaned, is worth showing. *)
Definition usable (answer : jsstring) : bool :=
  negb (isEmpty (sanitizeHtmlResponse answer)
        || isEmpty (trim (sanitizeHtmlResponse answer))).

(** How a response settles the promise of the request that accepts it. *)
Definition settlement (m : BridgeClient.MessageData) : BridgeClient.PromiseState :=
  if truthy (BridgeClient.merror m)
  then BridgeClient.RejectedMessage (default [] (BridgeClient.merror m))
  else BridgeClient.FulfilledWith (BridgeClient.mdata m).

(** The fetch function resolves, or fails with a text that is not empty. *)
Definition failsWithText (o : Outcome jsstring) : bool :=
  match o with
  | Resolves _ => true
  | Rejects e => negb (isEmpty (apiFailureText e))
  | Throws e => negb (isEmpty (apiFailureText e))
  end.

Definition isTimer (e : BridgeClient.Event) : bool :=
  match e with BridgeClient.TimerFires => true | _ => false end.

(** The event data [m] is the object the host posted as [r]. *)
Definition carries (m : BridgeClient.MessageData) (r : ApiResponseData) : Prop :=
  BridgeClient.mtype m = js "API_RESPONSE"
  /\ match r with
     | ResponseData requestId data =>
         BridgeClient.mrequestId m = requestId
         /\ BridgeClient.merror m = None /\ BridgeClient.mdata m = data
     | ResponseError requestId error =>
         BridgeClient.mrequestId m = requestId /\ BridgeClient.merror m = Some error
     end.

(** How the promise of the frame's call ends for an outcome of the host's
    fetch function. *)
Definition expectedSettlement (o : Outcome jsstring) : BridgeClient.PromiseState :=
  match o with
  | Resolves d => BridgeClient.FulfilledWith d
  | Rejects e => BridgeClient.RejectedMessage (apiFailureText e)
  | Throws e => BridgeClient.RejectedMessage (apiFailureText e)
  end.

(** The second script of the bridge: what the frame reports to its parent. *)
Module FrameFaults.

(** [e.reason] of an [unhandledrejection] event when it is truthy: its
    [message] property, when it has one, and its text [String(e.reason)]. *)
Record Reason := mkReason {
  reasonMessage : option jsstring;
  reasonText : jsstring
}.

(** The [error] listener, for the message of the error event. *)
Definition onWindowError (message : jsstring) : IframeMessage := IframeError message.

(** The [unhandledrejection] listener. *)
Definition onUnhandledRejection (reason : option Reason) : IframeMessage :=
  IframeError
    match reason with
    | Some r => if truthy (reasonMessage r) then default [] (reasonMessage r) else reasonText r
    | None => js "Unhandled rejection"
    end.

(** The reason [new Error(message)]: its text is the name of the class,
    followed by the message when there is one. *)
Definition errorReason (message : jsstring) : Reason :=
  mkReason (Some message)
    (if isEmpty message then js "Error" else js "Error: " ++ message).

End FrameFaults.

(** A fenced answer with white space allowed ahead of the tag, and the tag
    as the generator spelled it. *)
Definition wrapFenceWith (sep0 tag sep1 sep2 artifact : jsstring) : jsstring :=
  fence ++ sep0 ++ tag ++ sep1 ++ artifact ++ sep2 ++ fence.

(** ** Further instances of the scenarios *)

(** The first session of the scenarios: a request is typed and generated. *)
Definition demoActions : list Action := [TextareaInput (js "sales by region"); Generate].

(** The instance at the end of that session: [demoDoc] is on display and
    filed in the history. *)
Definition demoShown : Instance := perform Generate (demoTyped (Resolves demoDoc) None).

(** That instance once the user has typed a second request, with the first
    document still on display. *)
Definition demoSecond : Instance := perform (TextareaInput (js "as a pie chart")) demoShown.

(** The instance a second [create] builds over the host that session left. *)
Definition demoReloaded : Instance :=
  pristine (config (demoCreated (Resolves demoDoc) None))
    (host (performAll demoActions (demoCreated (Resolves demoDoc) None)))
    [mkItem (js "sales by region") demoDoc 1000].

(** A fresh instance in a browser whose storage throws. *)
Definition demoSession : Instance :=
  perform (HostChange None true 1000) (demoCreated (Resolves demoDoc) None).

Definition demoOther : VisualizationHistoryItem :=
  mkItem (js "orders per month") (js "<p>orders</p>") 2000.

(** A fresh instance whose text box holds white space only. *)
Definition demoBlank : Instance :=
  perform (TextareaInput (js "   ")) (demoCreated (Resolves demoDoc) None).

(** The response to [demoRequest]. *)
Definition demoAnswer : BridgeClient.MessageData :=
  BridgeClient.mkMessageData (js "API_RESPONSE") (js "req_1700000000000_k3j9x0q2a") None (js "[]").

(** A second call of the frame, made a millisecond later. *)
Definition demoOtherRequest : BridgeClient.Request :=
  fst (BridgeClient.apiRequest (js "1700000000001") (js "p0o9i8u7y") (js "/api/y")).

(** * Properties *)

Local Open Scope widget_scope.

#[local] Arguments js : simpl never.
#[local] Arguments buildVisualizationPrompt : simpl never.
#[local] Arguments buildImprovementPrompt : simpl never.
#[local] Arguments sanitizeHtmlResponse : simpl never.
#[local] Arguments injectApiBridge : simpl never.
#[local] Arguments trim : simpl never.
#[local] Arguments isEmpty : simpl never.
#[local] Arguments inRange : simpl never.

(** ** The pure functions on sample inputs *)

Example sanitize_tagged_fence :
  sanitizeHtmlResponse (js "```html" ++ nl ++ js "<p>x</p>" ++ nl ++ js "```") = js "<p>x</p>".
Proof. reflexivity. Qed.

Example inject_before_head_close :
  injectApiBridge (js "<HTML><Head></HEAD><body>x</body></html>")
  = js "<HTML><Head>" ++ bridge ++ js "</HEAD><body>x</body></html>".
Proof. vm_compute. reflexivity. Qed.

Example inject_after_body_open :
  injectApiBridge (js "<html><body class='a'>x</body></html>")
  = js "<html><body class='a'>" ++ bridge ++ js "x</body></html>".
Proof. vm_compute. reflexivity. Qed.

Example inject_after_dotted_capital_i :
  injectApiBridge ([304] ++ js "</head>") = [304] ++ js "<" ++ bridge ++ js "/head>".
Proof. vm_compute. reflexivity. Qed.

Example inject_body_never_closed :
  injectApiBridge (js "<body") = bridge ++ js "<body".
Proof. vm_compute. reflexivity. Qed.


(** ** Trimming *)

Lemma fence_units : fence = [96; 96; 96].
Proof. reflexivity. Qed.

Lemma html_units : js "html" = [104; 116; 109; 108].
Proof. reflexivity. Qed.

Lemma trimStart_blank w : isBlank w = true -> trimStart w = [].
Proof.
  induction w as [|c w IH]; [reflexivity|]. cbn. intros H.
  apply andb_prop in H as [-> H]. now apply IH.
Qed.

Lemma trimStart_blank_app w x : isBlank w = true -> trimStart (w ++ x) = trimStart x.
Proof.
  induction w as [|c w IH]; [reflexivity|]. cbn. intros H.
  apply andb_prop in H as [-> H]. now apply IH.
Qed.

Lemma trimStart_head c t : isWhiteSpace c = false -> trimStart (c :: t) = c :: t.
Proof. intros H. cbn. now rewrite H. Qed.

Lemma trimStart_split s : exists w, isBlank w = true /\ s = w ++ trimStart s.
Proof.
  induction s as [|c s (w & Hw & Hs)]; [now exists []|]. cbn.
  destruct (isWhiteSpace c) eqn:Hc.
  - exists (c :: w). unfold isBlank in *. cbn. rewrite Hc, Hw. split; [reflexivity|]. now f_equal.
  - now exists [].
Qed.

Lemma isBlank_rev w : isBlank (rev w) = isBlank w.
Proof.
  unfold isBlank. induction w as [|c w IH]; [reflexivity|].
  cbn. rewrite forallb_app, IH. cbn. rewrite andb_true_r. apply andb_comm.
Qed.

Lemma trimEnd_split s : exists w, isBlank w = true /\ s = trimEnd s ++ w.
Proof.
  unfold trimEnd. destruct (trimStart_split (rev s)) as (w & Hw & Hs).
  exists (rev w). rewrite isBlank_rev. split; [exact Hw|].
  rewrite <- rev_app_distr, <- Hs. now rewrite rev_involutive.
Qed.

Lemma trimEnd_app_blank x w : isBlank w = true -> trimEnd (x ++ w) = trimEnd x.
Proof.
  intros H. unfold trimEnd. rewrite rev_app_distr, trimStart_blank_app; [reflexivity|].
  now rewrite isBlank_rev.
Qed.

Lemma trim_fixed a : trim a = a -> trimStart a = a /\ trimEnd a = a.
Proof.
  intros H. unfold trim in H.
  destruct (trimStart_split a) as (w1 & _ & H1).
  destruct (trimEnd_split (trimStart a)) as (w2 & _ & H2).
  rewrite H in H2.
  assert (Hl : length a = (length w1 + (length a + length w2))%nat).
  { rewrite H1 at 1. rewrite H2 at 1. now rewrite !length_app. }
  assert (w1 = []) as -> by (destruct w1; [reflexivity | cbn in Hl; lia]).
  cbn in H1. split; [congruence|]. rewrite <- H1 in H. exact H.
Qed.

Lemma trimStart_fixed_head c t : trimStart (c :: t) = c :: t -> isWhiteSpace c = false.
Proof.
  cbn. destruct (isWhiteSpace c); [|reflexivity]. intros H.
  destruct (trimStart_split t) as (w & _ & Hw).
  assert (length t = (length w + S (length t))%nat); [|lia].
  rewrite Hw at 1. rewrite length_app, H. reflexivity.
Qed.

Lemma trim_padded w1 a w2 :
  isBlank w1 = true -> isBlank w2 = true -> trim a = a -> trim (w1 ++ a ++ w2) = a.
Proof.
  intros H1 H2 Ha. destruct (trim_fixed a Ha) as [Hs He].
  unfold trim. rewrite trimStart_blank_app by exact H1.
  destruct a as [|c t].
  - cbn [app]. now rewrite (trimStart_blank w2 H2).
  - rewrite <- app_comm_cons, trimStart_head by now apply (trimStart_fixed_head c t).
    rewrite app_comm_cons, trimEnd_app_blank by exact H2. exact He.
Qed.

Lemma trim_padded_end a w2 :
  isBlank w2 = true -> trim a = a -> trim (a ++ w2) = a.
Proof. intros. now apply (trim_padded [] a w2). Qed.

Lemma isBlank_snoc_tick y : isBlank (y ++ [96]) = false.
Proof. unfold isBlank. rewrite forallb_app. cbn. apply andb_false_r. Qed.

Lemma stripTrailingFence_app_fence x : stripTrailingFence (x ++ fence) = x.
Proof.
  induction x as [|c x IH]; [reflexivity|].
  cbn [app stripTrailingFence].
  assert (Hd : isBlank (drop 3 (c :: x ++ fence)) = false).
  { rewrite fence_units.
    change (c :: x ++ [96; 96; 96]) with ((c :: x) ++ [96; 96] ++ [96]).
    rewrite app_assoc, drop_app_le by (rewrite length_app; cbn; lia).
    apply isBlank_snoc_tick. }
  rewrite Hd, andb_false_r. now f_equal.
Qed.

Lemma indexOfFrom_none p s i :
  0 <= i -> indexOfFrom p s i = -1 ->
  startsWith p s = false
  /\ match s with [] => True | _ :: t => indexOfFrom p t (i + 1) = -1 end.
Proof.
  intros Hi. destruct s as [|c t]; cbn [indexOfFrom].
  - destruct (startsWith p []); [lia | easy].
  - destruct (startsWith p (c :: t)); [lia | easy].
Qed.

Lemma stripTrailingFence_clean a i :
  0 <= i -> indexOfFrom fence a i = -1 -> stripTrailingFence a = a.
Proof.
  revert i. induction a as [|c a IH]; intros i Hi Hn; [reflexivity|].
  destruct (indexOfFrom_none fence (c :: a) i Hi Hn) as [Hs Ht].
  cbn [stripTrailingFence]. rewrite Hs. cbn [andb]. f_equal.
  apply (IH (i + 1)); [lia | exact Ht].
Qed.

Lemma includes_false s p :
  includes s p = false -> indexOfFrom p s 0 = -1.
Proof.
  unfold includes, indexOf. intros H. apply negb_false_iff, Z.eqb_eq in H.
  replace (Z.min (Z.max 0 0) (len s)) with 0 in H by (unfold len; lia).
  exact H.
Qed.

Lemma sanitize_clean a :
  trim a = a -> includes a fence = false -> sanitizeHtmlResponse a = a.
Proof.
  intros Ht Hi. apply includes_false in Hi.
  destruct (indexOfFrom_none fence a 0 ltac:(lia) Hi) as [Hs _].
  unfold sanitizeHtmlResponse. cbn zeta. rewrite Ht.
  unfold stripLeadingHtmlFence, stripLeadingFence. rewrite Hs, Hs.
  rewrite (stripTrailingFence_clean a 0) by (lia || exact Hi). exact Ht.
Qed.

Lemma trimEnd_last s c : isWhiteSpace c = false -> trimEnd (s ++ [c]) = s ++ [c].
Proof.
  intros Hc. unfold trimEnd. rewrite rev_app_distr. cbn [rev app].
  rewrite trimStart_head by exact Hc. cbn [rev]. now rewrite rev_involutive.
Qed.

Lemma trim_between_ticks x :
  trim (96 :: x ++ [96]) = 96 :: x ++ [96].
Proof.
  unfold trim. rewrite trimStart_head by reflexivity.
  now rewrite app_comm_cons, trimEnd_last.
Qed.

Lemma startsWithBy_app_false eqb p a r :
  startsWithBy eqb p a = false ->
  (forall q c, In q p -> In c r -> eqb q c = false) ->
  startsWithBy eqb p (a ++ r) = false.
Proof.
  revert a. induction p as [|q p IH]; intros a Ha Hr; [discriminate|].
  destruct a as [|c a]; cbn.
  - destruct r as [|c r]; [reflexivity|]. cbn.
    rewrite (Hr q c) by (now left). reflexivity.
  - cbn in Ha. destruct (eqb q c); [|reflexivity]. cbn in *.
    apply IH; [exact Ha|]. intros q' c' Hq Hc. apply Hr; [now right | exact Hc].
Qed.

Lemma blank_not_letter w c q :
  isBlank w = true -> In c (w ++ fence) -> In q (js "html") ->
  matchesIgnoreCase q c = false.
Proof.
  intros Hw Hc Hq. apply in_app_or in Hc as [Hc | Hc].
  - unfold isBlank in Hw. rewrite forallb_forall in Hw. specialize (Hw c Hc).
    rewrite html_units in Hq. cbn in Hq.
    unfold matchesIgnoreCase.
    destruct Hq as [<-|[<-|[<-|[<-|[]]]]];
      repeat match goal with
             | |- context [Z.eqb ?a ?b] =>
                 destruct (Z.eqb_spec a b); [subst; vm_compute in Hw; discriminate|]
             end; reflexivity.
  - rewrite fence_units in Hc. rewrite html_units in Hq. cbn in Hc, Hq.
    destruct Hc as [<-|[<-|[<-|[]]]]; destruct Hq as [<-|[<-|[<-|[<-|[]]]]]; reflexivity.
Qed.

Lemma blank_head_not_tick w sep : isBlank (w :: sep) = true -> (96 =? w) = false.
Proof.
  unfold isBlank. cbn [forallb]. intros H. apply andb_prop in H as [H _].
  destruct (Z.eqb_spec 96 w) as [<-|]; [vm_compute in H; discriminate | reflexivity].
Qed.

(** What is left once the leading marker and its tag are gone: the artifact,
    the separator and the trailing marker. *)
Lemma strip_rest a sep2 :
  isBlank sep2 = true -> trim a = a -> startsWith fence a = false ->
  trim (stripTrailingFence (stripLeadingFence (trimStart (a ++ sep2 ++ fence)))) = a.
Proof.
  intros Hb Ha Hf. destruct (trim_fixed a Ha) as [Hs He].
  destruct a as [|c t].
  - cbn [app]. rewrite trimStart_blank_app by exact Hb. reflexivity.
  - rewrite <- app_comm_cons, trimStart_head by now apply (trimStart_fixed_head c t).
    unfold stripLeadingFence.
    destruct (startsWith fence (c :: t ++ sep2 ++ fence)) eqn:Hw.
    + (* the artifact is one or two backticks, directly followed by the marker *)
      rewrite fence_units in *. unfold startsWith in *.
      cbn [startsWithBy app] in Hw, Hf.
      destruct (Z.eqb_spec 96 c) as [<-|]; [|discriminate]. cbn [andb] in Hw, Hf.
      destruct t as [|c2 t].
      * destruct sep2 as [|w sep2]; [reflexivity|].
        cbn [startsWithBy app] in Hw. now rewrite (blank_head_not_tick w sep2 Hb) in Hw.
      * cbn [startsWithBy app] in Hw, Hf.
        destruct (Z.eqb_spec 96 c2) as [<-|]; [|discriminate]. cbn [andb] in Hw, Hf.
        destruct t as [|c3 t].
        -- destruct sep2 as [|w sep2]; [reflexivity|].
           cbn [startsWithBy app] in Hw. now rewrite (blank_head_not_tick w sep2 Hb) in Hw.
        -- cbn [startsWithBy app] in Hw, Hf.
           destruct (Z.eqb_spec 96 c3) as [<-|]; discriminate.
    + rewrite app_comm_cons, app_assoc, stripTrailingFence_app_fence.
      now apply trim_padded_end.
Qed.

Lemma sanitize_wrapped (tagged : bool) sep1 sep2 a :
  isBlank sep1 = true -> isBlank sep2 = true -> trim a = a ->
  (if tagged then startsWith fence a else startsWithIgnoreCase (js "html") a) = false ->
  sanitizeHtmlResponse (wrapFence tagged sep1 sep2 a) = a.
Proof.
  intros H1 H2 Ha Hstart.
  unfold sanitizeHtmlResponse, wrapFence. cbn zeta.
  assert (Htrim : forall x, trim (fence ++ x ++ fence) = fence ++ x ++ fence).
  { intros x. rewrite fence_units.
    replace ([96; 96; 96] ++ x ++ [96; 96; 96])
      with (96 :: ([96; 96] ++ x ++ [96; 96]) ++ [96])
      by (cbn [app]; now rewrite <- !app_assoc).
    apply trim_between_ticks. }
  destruct tagged.
  - replace (fence ++ js "html" ++ sep1 ++ a ++ sep2 ++ fence)
      with (fence ++ (js "html" ++ sep1 ++ a ++ sep2) ++ fence)
      by now rewrite <- !app_assoc.
    rewrite Htrim, <- !app_assoc.
    unfold stripLeadingHtmlFence.
    replace (startsWith fence (fence ++ js "html" ++ sep1 ++ a ++ sep2 ++ fence)) with true
      by reflexivity.
    replace (drop 3 (fence ++ js "html" ++ sep1 ++ a ++ sep2 ++ fence))
      with (js "html" ++ sep1 ++ a ++ sep2 ++ fence) by reflexivity.
    replace (trimStart (js "html" ++ sep1 ++ a ++ sep2 ++ fence))
      with (js "html" ++ sep1 ++ a ++ sep2 ++ fence) by reflexivity.
    replace (startsWithIgnoreCase (js "html") (js "html" ++ sep1 ++ a ++ sep2 ++ fence))
      with true by reflexivity.
    replace (drop 4 (js "html" ++ sep1 ++ a ++ sep2 ++ fence))
      with (sep1 ++ a ++ sep2 ++ fence) by reflexivity.
    rewrite trimStart_blank_app by exact H1.
    (* [trimStart] is the identity on what follows unless the artifact is empty *)
    rewrite <- (trimStart_blank_app [] (a ++ sep2 ++ fence)) by reflexivity.
    cbn [app]. now apply strip_rest.
  - cbn [app].
    replace (fence ++ sep1 ++ a ++ sep2 ++ fence)
      with (fence ++ (sep1 ++ a ++ sep2) ++ fence)
      by now rewrite <- !app_assoc.
    rewrite Htrim, <- !app_assoc.
    unfold stripLeadingHtmlFence.
    replace (startsWith fence (fence ++ sep1 ++ a ++ sep2 ++ fence)) with true by reflexivity.
    replace (drop 3 (fence ++ sep1 ++ a ++ sep2 ++ fence))
      with (sep1 ++ a ++ sep2 ++ fence) by reflexivity.
    rewrite trimStart_blank_app by exact H1.
    assert (Hno : startsWithIgnoreCase (js "html") (trimStart (a ++ sep2 ++ fence)) = false).
    { destruct (trim_fixed a Ha) as [Hs _]. destruct a as [|c t].
      - cbn [app]. now rewrite trimStart_blank_app.
      - rewrite <- app_comm_cons, trimStart_head by now apply (trimStart_fixed_head c t).
        rewrite app_comm_cons. apply startsWithBy_app_false; [exact Hstart|].
        intros q c' Hq Hc. now apply (blank_not_letter sep2). }
    rewrite Hno. unfold stripLeadingFence.
    replace (startsWith fence (fence ++ sep1 ++ a ++ sep2 ++ fence)) with true by reflexivity.
    replace (drop 3 (fence ++ sep1 ++ a ++ sep2 ++ fence))
      with (sep1 ++ a ++ sep2 ++ fence) by reflexivity.
    rewrite 2!app_assoc, stripTrailingFence_app_fence, <- app_assoc.
    now apply trim_padded.
Qed.

(** ** The round trip through a fence *)

(** Three artifacts that do not come back from their fenced form: one that
    ends with a line break, one that opens with the letters html behind an
    untagged marker, one that opens with a fence marker of its own. *)
Lemma sanitize_wrapped_changes_artifact :
  sanitizeHtmlResponse (wrapFence true nl nl (js "<p>hi</p>" ++ nl)) = js "<p>hi</p>"
  /\ sanitizeHtmlResponse (wrapFence true nl nl (js "<p>hi</p>" ++ nl)) <> js "<p>hi</p>" ++ nl
  /\ sanitizeHtmlResponse (wrapFence false nl nl (js "html5 rocks")) = js "5 rocks"
  /\ sanitizeHtmlResponse (wrapFence true nl nl (js "```x")) = js "x".
Proof. vm_compute. split_and!; try reflexivity. discriminate. Qed.

(** C4, amended: for every artifact that is trimmed and does not begin with a
    fence marker (behind an untagged marker: does not begin with the letters
    html in any case), cleaning the artifact wrapped in a leading marker,
    optionally tagged html, and a trailing marker, white space between them,
    gives back exactly the artifact; and cleaning a trimmed artifact that
    holds no fence marker gives it back unchanged. *)
Theorem sanitize_roundtrip (tagged : bool) (sep1 sep2 artifact : jsstring) :
  trim artifact = artifact ->
  (isBlank sep1 = true ->
   isBlank sep2 = true ->
   (if tagged then startsWith fence artifact
    else startsWithIgnoreCase (js "html") artifact) = false ->
   sanitizeHtmlResponse (wrapFence tagged sep1 sep2 artifact) = artifact)
  /\ (includes artifact fence = false -> sanitizeHtmlResponse artifact = artifact).
Proof.
  intros Ht. split.
  - intros H1 H2 Hs. now apply sanitize_wrapped.
  - intros Hi. now apply sanitize_clean.
Qed.

Lemma sanitize_roundtrip_witness :
  sanitizeHtmlResponse (wrapFence true nl nl demoDoc) = demoDoc
  /\ sanitizeHtmlResponse (wrapFence false nl nl demoDoc) = demoDoc
  /\ sanitizeHtmlResponse demoDoc = demoDoc.
Proof.
  split_and!.
  - apply (sanitize_roundtrip true nl nl demoDoc); reflexivity.
  - apply (sanitize_roundtrip false nl nl demoDoc); reflexivity.
  - apply (sanitize_roundtrip true nl nl demoDoc); reflexivity.
Defined.

(** ** Where the bridge goes *)

Lemma clampIndex_nat s (n : nat) : clampIndex s (Z.of_nat n) = Nat.min n (length s).
Proof.
  unfold clampIndex, len. destruct (Z.ltb_spec (Z.of_nat n) 0); lia.
Qed.

Lemma slice_sliceFrom s k : slice s 0 k ++ sliceFrom s k = s.
Proof.
  unfold slice, sliceFrom.
  replace (clampIndex s 0) with 0%nat by (unfold clampIndex, len; cbn; lia).
  cbn [drop]. apply take_drop.
Qed.

Lemma slice_nat s (n : nat) : slice s 0 (Z.of_nat n) = take n s.
Proof.
  unfold slice.
  replace (clampIndex s 0) with 0%nat by (unfold clampIndex, len; cbn; lia).
  cbn [drop]. rewrite clampIndex_nat.
  destruct (Nat.min_spec n (length s)) as [[_ ->]|[Hle ->]]; [reflexivity|].
  now rewrite !take_ge by lia.
Qed.

Lemma sliceFrom_nat s (n : nat) : sliceFrom s (Z.of_nat n) = drop n s.
Proof.
  unfold sliceFrom. rewrite clampIndex_nat.
  destruct (Nat.min_spec n (length s)) as [[_ ->]|[Hle ->]]; [reflexivity|].
  now rewrite !drop_ge by lia.
Qed.

(** The bridge goes between two halves of the artifact, which are otherwise
    left as they are. *)
Lemma injectApiBridge_frame html :
  exists pre post, html = pre ++ post /\ injectApiBridge html = pre ++ bridge ++ post.
Proof.
  unfold injectApiBridge. cbn zeta.
  destruct (negb (_ =? -1)).
  - eexists _, _. split; [|reflexivity]. symmetry. apply slice_sliceFrom.
  - destruct (negb (_ =? -1)).
    + eexists _, _. split; [|reflexivity]. symmetry. apply slice_sliceFrom.
    + exists [], html. split; reflexivity.
Qed.

Lemma toLowerCase_map s : noDottedCapitalI s = true -> toLowerCase s = map lowerOne s.
Proof.
  unfold toLowerCase, noDottedCapitalI. induction s as [|c s IH]; [reflexivity|].
  cbn [forallb flat_map map]. intros H. apply andb_prop in H as [Hc Hs].
  rewrite (IH Hs). unfold toLowerUnit, lowerOne.
  apply negb_true_iff in Hc. rewrite Hc.
  destruct ((65 <=? c) && (c <=? 90)); [reflexivity|].
  destruct (c =? 8490); reflexivity.
Qed.

Lemma lowerOne_matches q c :
  needleUnit q = true -> (q =? lowerOne c) = matchesIgnoreCase q c.
Proof.
  unfold needleUnit, lowerOne, matchesIgnoreCase. intros Hq.
  apply eq_iff_eq_true.
  destruct ((65 <=? c) && (c <=? 90)) eqn:Hu; [|destruct (c =? 8490) eqn:Hk];
    rewrite ?orb_true_iff, ?andb_true_iff, ?andb_false_iff, ?Z.eqb_eq, ?Z.eqb_neq,
      ?Z.leb_le, ?Z.leb_gt in *; lia.
Qed.

Lemma startsWith_lowered p s :
  forallb needleUnit p = true ->
  startsWith p (map lowerOne s) = startsWithIgnoreCase p s.
Proof.
  unfold startsWith, startsWithIgnoreCase.
  revert s. induction p as [|q p IH]; intros s Hp; [reflexivity|].
  cbn [forallb] in Hp. apply andb_prop in Hp as [Hq Hp].
  destruct s as [|c s]; [reflexivity|].
  cbn [map startsWithBy]. now rewrite lowerOne_matches, IH.
Qed.

Lemma indexOfFrom_lowered p s i :
  forallb needleUnit p = true ->
  indexOfFrom p (map lowerOne s) i
  = match findIgnoreCase p s with
    | Some k => i + Z.of_nat k
    | None => -1
    end.
Proof.
  intros Hp. revert i. induction s as [|c s IH]; intros i.
  - cbn [map indexOfFrom findIgnoreCase].
    change (@nil Z) with (map lowerOne []) at 1. rewrite startsWith_lowered by exact Hp.
    destruct (startsWithIgnoreCase p []); [cbn; lia | reflexivity].
  - cbn [map indexOfFrom findIgnoreCase].
    change (lowerOne c :: map lowerOne s) with (map lowerOne (c :: s)).
    rewrite startsWith_lowered by exact Hp.
    destruct (startsWithIgnoreCase p (c :: s)); [cbn; lia|].
    rewrite IH. destruct (findIgnoreCase p s); cbn [option_map]; lia.
Qed.

Lemma indexOf_lowered p s :
  forallb needleUnit p = true -> noDottedCapitalI s = true ->
  indexOf (toLowerCase s) p 0
  = match findIgnoreCase p s with
    | Some k => Z.of_nat k
    | None => -1
    end.
Proof.
  intros Hp Hs. rewrite (toLowerCase_map s Hs). unfold indexOf.
  replace (Z.min (Z.max 0 0) (len (map lowerOne s))) with 0 by (unfold len; lia).
  change (Z.to_nat 0) with 0%nat. rewrite drop_0, indexOfFrom_lowered by exact Hp.
  destruct (findIgnoreCase p s); lia.
Qed.

Lemma indexOfFrom_unit c s i :
  indexOfFrom [c] s i
  = match findUnitFrom c s 0 with
    | Some g => i + Z.of_nat g
    | None => -1
    end.
Proof.
  revert i. induction s as [|x s IH]; intros i; [reflexivity|].
  cbn [indexOfFrom findUnitFrom]. unfold startsWith. cbn [startsWithBy].
  rewrite andb_true_r, Z.eqb_sym.
  destruct (x =? c); [cbn; lia|].
  rewrite IH. destruct (findUnitFrom c s 0); cbn [option_map]; lia.
Qed.

Lemma findUnitFrom_drop c s (k : nat) :
  (k <= length s)%nat ->
  findUnitFrom c s k = option_map (Nat.add k) (findUnitFrom c (drop k s) 0).
Proof.
  revert k. induction s as [|x s IH]; intros k Hk.
  - destruct k; [reflexivity | cbn in Hk; lia].
  - destruct k as [|k].
    + cbn [drop]. destruct (findUnitFrom c (x :: s) 0); reflexivity.
    + cbn [findUnitFrom drop]. rewrite IH by (cbn in Hk; lia).
      destruct (findUnitFrom c (drop k s) 0); reflexivity.
Qed.

Lemma findIgnoreCase_bound p s k : findIgnoreCase p s = Some k -> (k <= length s)%nat.
Proof.
  revert k. induction s as [|c s IH]; intros k; cbn [findIgnoreCase].
  - destruct (startsWithIgnoreCase p []); intros [= <-]; cbn; lia.
  - destruct (startsWithIgnoreCase p (c :: s)); [intros [= <-]; cbn; lia|].
    destruct (findIgnoreCase p s) as [k'|]; [|discriminate].
    intros [= <-]. specialize (IH k' eq_refl). cbn. lia.
Qed.

Lemma indexOf_unit c s (k : nat) :
  (k <= length s)%nat ->
  indexOf s [c] (Z.of_nat k)
  = match findUnitFrom c s k with
    | Some g => Z.of_nat g
    | None => -1
    end.
Proof.
  intros Hk. unfold indexOf.
  replace (Z.min (Z.max (Z.of_nat k) 0) (len s)) with (Z.of_nat k) by (unfold len; lia).
  rewrite Nat2Z.id, indexOfFrom_unit, (findUnitFrom_drop c s k Hk).
  destruct (findUnitFrom c (drop k s) 0); cbn [option_map]; lia.
Qed.

Lemma injectApiBridge_specInject html :
  noDottedCapitalI html = true -> injectApiBridge html = specInject html.
Proof.
  intros Hs. unfold injectApiBridge, specInject, specInsertionPoint. cbn zeta.
  rewrite !indexOf_lowered by (reflexivity || exact Hs).
  destruct (findIgnoreCase (js "</head>") html) as [h|] eqn:Hh.
  - replace (negb (Z.of_nat h =? -1)) with true by (symmetry; apply negb_true_iff, Z.eqb_neq; lia).
    now rewrite slice_nat, sliceFrom_nat.
  - cbn [negb Z.eqb]. 
    destruct (findIgnoreCase (js "<body") html) as [b|] eqn:Hb.
    + replace (negb (Z.of_nat b =? -1)) with true by (symmetry; apply negb_true_iff, Z.eqb_neq; lia).
      change (js ">") with [62].
      rewrite (indexOf_unit 62 html b (findIgnoreCase_bound _ _ _ Hb)).
      destruct (findUnitFrom 62 html b) as [g|].
      * replace (Z.of_nat g + 1) with (Z.of_nat (S g)) by lia.
        now rewrite slice_nat, sliceFrom_nat.
      * change (-1 + 1) with (Z.of_nat 0). now rewrite slice_nat, sliceFrom_nat.
    + reflexivity.
Qed.


(** Two artifacts on which the bridge is not where the specification puts
    it: a script in the head runs before the bridge that follows it, and a
    U+0130 ahead of the closing head marker moves the insertion point into
    the marker. *)
Lemma injectApiBridge_misplaced :
  injectApiBridge (js "<head><script>apiRequest('/x')</script></head>")
  = js "<head><script>apiRequest('/x')</script>" ++ bridge ++ js "</head>"
  /\ includes (js "<head><script>apiRequest('/x')</script>") (js "<script") = true
  /\ injectApiBridge ([304] ++ js "</head>") = [304] ++ js "<" ++ bridge ++ js "/head>"
  /\ injectApiBridge ([304] ++ js "</head>") <> specInject ([304] ++ js "</head>").
Proof. vm_compute. split_and!; try reflexivity. discriminate. Qed.

(** C9, amended: for every artifact without the code unit U+0130, the bridge
    is inserted immediately before the first closing head marker (letter case
    ignored) if there is one; else, if the marker of an opening body tag is
    there and a [>] follows it, immediately after the first such [>]; else at
    the very start.  In every case, also with U+0130, the artifact's text
    before and after the bridge is unchanged. *)
Theorem injectApiBridge_position (artifact : jsstring) :
  noDottedCapitalI artifact = true ->
  injectApiBridge artifact = specInject artifact
  /\ (forall any : jsstring,
        exists pre post,
          any = pre ++ post /\ injectApiBridge any = pre ++ bridge ++ post).
Proof.
  intros Hs. split.
  - now apply injectApiBridge_specInject.
  - intros any. apply injectApiBridge_frame.
Qed.

Lemma injectApiBridge_position_witness :
  injectApiBridge (js "<HTML><Head></HEAD><body>x</body></html>")
  = specInject (js "<HTML><Head></HEAD><body>x</body></html>")
  /\ specInsertionPoint (js "<HTML><Head></HEAD><body>x</body></html>") = 12%nat.
Proof.
  split; [|reflexivity].
  apply (injectApiBridge_position (js "<HTML><Head></HEAD><body>x</body></html>")).
  reflexivity.
Defined.

(** ** Reasoning about methods: relations kept by every step *)

Section Keeps.
Variable R : Instance -> Instance -> Prop.
Hypothesis R_refl : forall s, R s s.
Hypothesis R_trans : forall a b c, R a b -> R b c -> R a c.

Lemma keeps_ret {A} (a : A) : keeps R (ret a).
Proof. intros s. apply R_refl. Qed.

Lemma keeps_throw {A} e : keeps R (@throw A e).
Proof. intros s. apply R_refl. Qed.

Lemma keeps_get : keeps R get.
Proof. intros s. apply R_refl. Qed.

Lemma keeps_await {A} (p : Outcome A) : keeps R (await p).
Proof. intros s. destruct p; apply R_refl. Qed.

Lemma keeps_update f : (forall s, R s (f s)) -> keeps R (update f).
Proof. intros Hf s. apply Hf. Qed.

Lemma keeps_bind {A B} (m : M A) (k : A -> M B) :
  keeps R m -> (forall a, keeps R (k a)) -> keeps R (bind m k).
Proof.
  intros Hm Hk s. unfold bind. specialize (Hm s).
  destruct (m s) as [a s'|e s']; [|exact Hm].
  specialize (Hk a s'). destruct (k a s'); eapply R_trans; eauto.
Qed.

Lemma keeps_tryCatch {A} (m : M A) handler :
  keeps R m -> (forall e, keeps R (handler e)) -> keeps R (tryCatch m handler).
Proof.
  intros Hm Hh s. unfold tryCatch. specialize (Hm s).
  destruct (m s) as [a s'|e s']; [exact Hm|].
  specialize (Hh e s'). destruct (handler e s'); eapply R_trans; eauto.
Qed.

Lemma keeps_run m s : keeps R m -> R s (run m s).
Proof. intros Hm. unfold run. specialize (Hm s). destruct (m s); exact Hm. Qed.

Lemma keeps_async m s : keeps R m -> R s (snd (async m s)).
Proof. intros Hm. unfold async. specialize (Hm s). destruct (m s); exact Hm. Qed.
End Keeps.

(** Breaks a method into its statements; what is left are the assignments. *)
Ltac keeps_steps :=
  repeat first
    [ apply keeps_ret; solve [eauto]
    | apply keeps_throw; solve [eauto]
    | apply keeps_get; solve [eauto]
    | apply keeps_await; solve [eauto]
    | apply keeps_bind; [solve [eauto] | | intros ?]
    | apply keeps_tryCatch; [solve [eauto] | | intros ?]
    | apply keeps_update
    | match goal with
      | |- keeps _ (if ?b then _ else _) => destruct b eqn:?
      | |- keeps _ (match ?x with _ => _ end) => destruct x eqn:?
      end ].

Ltac unfold_methods :=
  unfold generateVisualizationBody, generateBody, beforeCompletion, afterCompletion,
    generateCatch, handleApiRequestBody, clearVisualization, selectHistory,
    textareaInput, setTheme, removeHistory, replaceHistory, saveHistory, clearHistory,
    loadHistory, persist, callChatCompletion, callOnError, sendMessageToIframe,
    displayVisualization, showError, hideError, setState.

(** *** The field [state] is never written *)

Lemma sameState_refl s : sameState s s.
Proof. reflexivity. Qed.

Lemma sameState_trans a b c : sameState a b -> sameState b c -> sameState a c.
Proof. unfold sameState. congruence. Qed.

#[local] Hint Resolve sameState_refl sameState_trans : core.

Ltac same_state_assignments :=
  intros; unfold sameState; cbn; repeat case_match; reflexivity.

Lemma generateVisualizationBody_state : keeps sameState generateVisualizationBody.
Proof. unfold_methods. keeps_steps; same_state_assignments. Qed.

Lemma handleApiRequestBody_state requestId url :
  keeps sameState (handleApiRequestBody requestId url).
Proof. unfold_methods. keeps_steps; same_state_assignments. Qed.

Lemma messageListener_state fromFrame data :
  keeps sameState (messageListener fromFrame data).
Proof.
  unfold messageListener. unfold_methods. keeps_steps; try same_state_assignments.
  intros s'. apply (keeps_async sameState), handleApiRequestBody_state.
Qed.

Lemma perform_state a s : state (perform a s) = state s.
Proof.
  destruct a; unfold perform.
  - apply (keeps_async sameState), generateVisualizationBody_state.
  - apply (keeps_run sameState). unfold_methods. keeps_steps; same_state_assignments.
  - apply (keeps_run sameState). unfold_methods. keeps_steps; same_state_assignments.
  - apply (keeps_run sameState). unfold_methods. keeps_steps; same_state_assignments.
  - apply (keeps_run sameState). unfold_methods. keeps_steps; same_state_assignments.
  - apply (keeps_run sameState). unfold_methods. keeps_steps; same_state_assignments.
  - apply (keeps_run sameState). unfold_methods. keeps_steps; same_state_assignments.
  - apply (keeps_run sameState), messageListener_state.
  - reflexivity.
Qed.

Lemma create_state raw h s : create raw h = inr s -> state s = IDLE.
Proof.
  unfold create. repeat case_match; try discriminate.
  intros [= <-]. unfold run, loadHistory, update. repeat case_match; reflexivity.
Qed.

(** Whatever has happened to an instance, [getState()] answers [idle]. *)
Lemma reachable_getState_idle s : reachable s -> getState s = IDLE.
Proof.
  induction 1 as [raw h s Hc | a s _ IH].
  - exact (create_state _ _ _ Hc).
  - unfold getState in *. rewrite perform_state. exact IH.
Qed.

(** With the state stuck at [idle], no request is ever taken as an
    improvement. *)
Lemma reachable_never_improves s : reachable s -> isImprovement s = false.
Proof.
  intros Hr. apply reachable_getState_idle in Hr. unfold getState in Hr.
  unfold isImprovement. rewrite Hr. now destruct (lastGeneratedCode s).
Qed.

(** *** The improvement prompts are non-empty texts *)

Lemma keepsPrompts_refl s : keepsPrompts s s.
Proof. intros H. exact H. Qed.

Lemma keepsPrompts_trans a b c : keepsPrompts a b -> keepsPrompts b c -> keepsPrompts a c.
Proof. unfold keepsPrompts. auto. Qed.

#[local] Hint Resolve keepsPrompts_refl keepsPrompts_trans : core.

Ltac prompts_assignments :=
  intros; unfold keepsPrompts, promptsNonEmpty; cbn;
  repeat case_match; cbn;
  try (intros Hkeep; rewrite ?forallb_app, ?Hkeep; cbn;
       repeat match goal with H : isEmpty _ = false |- _ => rewrite H end);
  try reflexivity; try assumption.

Lemma generateVisualizationBody_prompts : keeps keepsPrompts generateVisualizationBody.
Proof. unfold_methods. keeps_steps; prompts_assignments. Qed.

Lemma handleApiRequestBody_prompts requestId url :
  keeps keepsPrompts (handleApiRequestBody requestId url).
Proof. unfold_methods. keeps_steps; prompts_assignments. Qed.

Lemma messageListener_prompts fromFrame data :
  keeps keepsPrompts (messageListener fromFrame data).
Proof.
  unfold messageListener. unfold_methods. keeps_steps; try prompts_assignments.
  revert Hkeep. apply (keeps_async keepsPrompts), handleApiRequestBody_prompts.
Qed.

Lemma perform_prompts a s : promptsNonEmpty s -> promptsNonEmpty (perform a s).
Proof.
  destruct a; unfold perform.
  - apply (keeps_async keepsPrompts), generateVisualizationBody_prompts.
  - apply (keeps_run keepsPrompts). unfold_methods. keeps_steps; prompts_assignments.
  - apply (keeps_run keepsPrompts). unfold_methods. keeps_steps; prompts_assignments.
  - apply (keeps_run keepsPrompts). unfold_methods. keeps_steps; prompts_assignments.
  - apply (keeps_run keepsPrompts). unfold_methods. keeps_steps; prompts_assignments.
  - apply (keeps_run keepsPrompts). unfold_methods. keeps_steps; prompts_assignments.
  - apply (keeps_run keepsPrompts). unfold_methods. keeps_steps; prompts_assignments.
  - apply (keeps_run keepsPrompts), messageListener_prompts.
  - intros H. exact H.
Qed.

Lemma reachable_prompts_nonempty s : reachable s -> promptsNonEmpty s.
Proof.
  induction 1 as [raw h s Hc | a s _ IH].
  - unfold create in Hc. repeat case_match; try discriminate.
    injection Hc as <-. unfold run, loadHistory, update. repeat case_match; reflexivity.
  - now apply perform_prompts.
Qed.

(** *** Running [generateVisualization] step by step *)

Lemma sameAsked_refl s : sameAsked s s.
Proof. reflexivity. Qed.

Lemma sameAsked_trans a b c : sameAsked a b -> sameAsked b c -> sameAsked a c.
Proof. unfold sameAsked. congruence. Qed.

Lemma sameConfig_refl s : sameConfig s s.
Proof. reflexivity. Qed.

Lemma sameConfig_trans a b c : sameConfig a b -> sameConfig b c -> sameConfig a c.
Proof. unfold sameConfig. congruence. Qed.

#[local] Hint Resolve sameAsked_refl sameAsked_trans sameConfig_refl sameConfig_trans : core.

Ltac same_field_assignments R :=
  intros; unfold R; cbn; repeat case_match; reflexivity.

Lemma afterCompletion_asked message improving r :
  keeps sameAsked (afterCompletion message improving r).
Proof. unfold_methods. keeps_steps; same_field_assignments sameAsked. Qed.

Lemma generateCatch_asked e : keeps sameAsked (generateCatch e).
Proof. unfold_methods. keeps_steps; same_field_assignments sameAsked. Qed.

Lemma generateBody_config message : keeps sameConfig (generateBody message).
Proof. unfold_methods. keeps_steps; same_field_assignments sameConfig. Qed.

Lemma beforeCompletion_run message s :
  exists s1,
    beforeCompletion message s = Normal (isImprovement s, chosenPrompt message s) s1
    /\ config s1 = config s /\ host s1 = host s /\ history s1 = history s
    /\ state s1 = state s.
Proof.
  unfold beforeCompletion, chosenPrompt. unfold_methods. unfold bind, get, update, ret.
  destruct (isImprovement s); cbn; eexists; repeat split; reflexivity.
Qed.

Lemma callChatCompletion_run p s :
  callChatCompletion p s =
    let s' := s <| host ::= fun h => h <| asked ::= fun l => l ++ [p] |> |> in
    match chatCompletion (config s) p with
    | Resolves r => Normal r s'
    | Rejects e => Abrupt e s'
    | Throws e => Abrupt e s'
    end.
Proof.
  unfold callChatCompletion, bind, get, update, await. cbn.
  destruct (chatCompletion (config s) p); reflexivity.
Qed.

(** The [try] block: the instance [s2] at the moment the completion function
    has been called, and how the block goes on from there. *)
Lemma generateBody_run message s :
  exists s2,
    config s2 = config s /\ history s2 = history s /\ state s2 = state s
    /\ localStorage (host s2) = localStorage (host s)
    /\ reported (host s2) = reported (host s)
    /\ asked (host s2) = asked (host s) ++ [chosenPrompt message s]
    /\ generateBody message s =
         match chatCompletion (config s) (chosenPrompt message s) with
         | Resolves r => afterCompletion message (isImprovement s) r s2
         | Rejects e => Abrupt e s2
         | Throws e => Abrupt e s2
         end.
Proof.
  destruct (beforeCompletion_run message s) as (s1 & Hrun & Hc & Hh & Hi & Hs).
  exists (s1 <| host ::= fun h => h <| asked ::= fun l => l ++ [chosenPrompt message s] |> |>).
  cbn. rewrite Hh, Hc, Hi, Hs. repeat split; try reflexivity.
  unfold generateBody, bind at 1 2. rewrite Hrun. cbn [fst snd].
  rewrite callChatCompletion_run, Hc. cbn zeta.
  destruct (chatCompletion (config s) (chosenPrompt message s)); reflexivity.
Qed.

Lemma generateVisualization_nonempty s :
  isEmpty (trim (textareaValue (dom s))) = false ->
  generateVisualization s =
    async (tryCatch (generateBody (trim (textareaValue (dom s)))) generateCatch) s.
Proof.
  intros He. unfold generateVisualization, generateVisualizationBody, async, bind, get.
  rewrite He. reflexivity.
Qed.

(** Exactly one prompt goes to the completion function, the chosen one. *)
Lemma generateVisualization_asked s :
  isEmpty (trim (textareaValue (dom s))) = false ->
  asked (host (snd (generateVisualization s)))
  = asked (host s) ++ [chosenPrompt (trim (textareaValue (dom s))) s].
Proof.
  intros He. rewrite (generateVisualization_nonempty s He).
  set (message := trim (textareaValue (dom s))).
  destruct (generateBody_run message s) as (s2 & _ & _ & _ & _ & _ & Ha & Hrun).
  unfold async, tryCatch. rewrite Hrun.
  assert (Hcatch : forall e, asked (host (snd
            match generateCatch e s2 with
            | Normal _ s' => (Fulfilled, s')
            | Abrupt e' s' => (RejectedWith e', s')
            end)) = asked (host s2)).
  { intros e. pose proof (generateCatch_asked e s2) as Hk.
    destruct (generateCatch e s2); exact Hk. }
  destruct (chatCompletion (config s) (chosenPrompt message s)) as [r|e|e].
  - pose proof (afterCompletion_asked message (isImprovement s) r s2) as Hk.
    destruct (afterCompletion message (isImprovement s) r s2) as [[] s3|e s3].
    + cbn. rewrite Hk. exact Ha.
    + pose proof (generateCatch_asked e s3) as Hk'.
      destruct (generateCatch e s3); cbn; unfold sameAsked in *; congruence.
  - rewrite Hcatch. exact Ha.
  - rewrite Hcatch. exact Ha.
Qed.

(** ** The choice of the prompt template *)

Lemma improvement_template_recognised api o l c :
  isImprovementTemplate (buildImprovementPrompt api o l c) = true
  /\ isFreshTemplate (buildImprovementPrompt api o l c) = false.
Proof. split; reflexivity. Qed.

Lemma fresh_template_recognised api m :
  isFreshTemplate (buildVisualizationPrompt api m) = true
  /\ isImprovementTemplate (buildVisualizationPrompt api m) = false.
Proof. split; reflexivity. Qed.

Lemma isImprovement_spec s :
  isImprovement s = true <-> lastGeneratedCode s <> None /\ getState s = DISPLAYING.
Proof.
  unfold isImprovement, getState.
  destruct (lastGeneratedCode s), (state s); split; intros H;
    try discriminate; try (split; congruence); destruct H; congruence.
Qed.

(** C2: with non-empty user text, the one prompt handed to the completion
    function is built from the improvement template exactly when an artifact
    is held and the state is [displaying]; in every other case it is built
    from the fresh-generation template. *)
Theorem template_choice (s : Instance) :
  isEmpty (trim (textareaValue (dom s))) = false ->
  exists p,
    asked (host (snd (generateVisualization s))) = asked (host s) ++ [p]
    /\ p = chosenPrompt (trim (textareaValue (dom s))) s
    /\ (isImprovementTemplate p = true
        <-> lastGeneratedCode s <> None /\ getState s = DISPLAYING)
    /\ (isFreshTemplate p = true
        <-> ~ (lastGeneratedCode s <> None /\ getState s = DISPLAYING)).
Proof.
  intros He. exists (chosenPrompt (trim (textareaValue (dom s))) s).
  split; [exact (generateVisualization_asked s He)|]. split; [reflexivity|].
  rewrite <- isImprovement_spec. unfold chosenPrompt.
  destruct (isImprovement s).
  - destruct (improvement_template_recognised (apiDescription (config s)) (originalPrompt s)
      (improvementPrompts s ++ [trim (textareaValue (dom s))])
      (default [] (lastGeneratedCode s))) as [-> ->].
    split; split; intros H; try reflexivity; try discriminate. now destruct H.
  - destruct (fresh_template_recognised (apiDescription (config s))
      (trim (textareaValue (dom s)))) as [-> ->].
    split; split; intros H; try reflexivity; discriminate.
Qed.

Lemma template_choice_witness :
  exists p,
    asked (host (snd (generateVisualization (demoTyped (Resolves demoDoc) None))))
    = asked (host (demoTyped (Resolves demoDoc) None)) ++ [p]
    /\ p = chosenPrompt (trim (textareaValue (dom (demoTyped (Resolves demoDoc) None))))
             (demoTyped (Resolves demoDoc) None)
    /\ (isImprovementTemplate p = true
        <-> lastGeneratedCode (demoTyped (Resolves demoDoc) None) <> None
            /\ getState (demoTyped (Resolves demoDoc) None) = DISPLAYING)
    /\ (isFreshTemplate p = true
        <-> ~ (lastGeneratedCode (demoTyped (Resolves demoDoc) None) <> None
               /\ getState (demoTyped (Resolves demoDoc) None) = DISPLAYING)).
Proof. apply template_choice. reflexivity. Defined.

(** ** What the improvement prompt contains *)

Lemma occursIn_here (x post : jsstring) : occursIn x (x ++ post).
Proof. exists [], post. reflexivity. Qed.

Lemma occursIn_later (x a t : jsstring) : occursIn x t -> occursIn x (a ++ t).
Proof. intros (pre & post & ->). exists (a ++ pre), post. now rewrite <- app_assoc. Qed.

Ltac find_occurrence :=
  repeat first [ apply occursIn_here | apply occursIn_later ].

Lemma improvementPrompt_contains api o l code :
  occursIn api (buildImprovementPrompt api o l code)
  /\ occursIn code (buildImprovementPrompt api o l code)
  /\ occursIn (nl ++ join nl (requestHistory o l)) (buildImprovementPrompt api o l code).
Proof.
  unfold buildImprovementPrompt. cbn zeta. split; [|split].
  - find_occurrence.
  - find_occurrence.
  - rewrite (app_assoc nl (join nl (requestHistory o l))). find_occurrence.
Qed.

Lemma occursIn_suffix (a x t : jsstring) : occursIn (a ++ x) t -> occursIn x t.
Proof.
  intros (pre & post & ->). exists (pre ++ a), post. now rewrite <- !app_assoc.
Qed.

Lemma requestHistory_nonempty o l :
  forallb (fun p => negb (isEmpty p)) l = true ->
  requestHistory o l
  = match o with
    | Some x => if isEmpty x then l else x :: l
    | None => l
    end.
Proof.
  intros Hl. unfold requestHistory.
  assert (Hm : omap (fun x => if truthy x then x else None) (map Some l) = l).
  { induction l as [|x l IH]; [reflexivity|].
    cbn in Hl. apply andb_prop in Hl as [Hx Hl]. cbn. rewrite Hx. cbn.
    f_equal. apply IH, Hl. }
  destruct o as [x|]; cbn; [|exact Hm].
  destruct x; cbn; rewrite Hm; reflexivity.
Qed.

Lemma join_cons_nonempty sep x (l : list jsstring) :
  l <> [] -> join sep (x :: l) = x ++ sep ++ join sep l.
Proof. destruct l; [congruence | reflexivity]. Qed.

Lemma requestList_occurs api o l code :
  l <> [] ->
  forallb (fun p => negb (isEmpty p)) l = true ->
  occursIn (join nl (requestList o l)) (buildImprovementPrompt api o l code).
Proof.
  intros Hne Hl.
  destruct (improvementPrompt_contains api o l code) as (_ & _ & Hh).
  rewrite (requestHistory_nonempty o l Hl) in Hh.
  destruct o as [x|]; cbn [requestList].
  - destruct x as [|c x].
    + rewrite (join_cons_nonempty nl [] l Hne). exact Hh.
    + exact (occursIn_suffix nl _ _ Hh).
  - exact (occursIn_suffix nl _ _ Hh).
Qed.

(** What the improvement branch of [generateVisualization] sends, for a value
    of the fields in which [state] holds [DISPLAYING] and an artifact is
    held: the improvement template with the whole prior artifact, the API
    description and the requests so far joined by line breaks.  The public
    operations never produce such a value ([reachable_getState_idle]). *)
Lemma improvement_prompt_content (s : Instance) (code : jsstring) :
  getState s = DISPLAYING ->
  lastGeneratedCode s = Some code ->
  isEmpty (trim (textareaValue (dom s))) = false ->
  promptsNonEmpty s ->
  exists p,
    asked (host (snd (generateVisualization s))) = asked (host s) ++ [p]
    /\ p = buildImprovementPrompt (apiDescription (config s)) (originalPrompt s)
             (improvementPrompts s ++ [trim (textareaValue (dom s))]) code
    /\ isImprovementTemplate p = true
    /\ occursIn code p
    /\ occursIn (apiDescription (config s)) p
    /\ occursIn
         (join nl (requestList (originalPrompt s)
                     (improvementPrompts s ++ [trim (textareaValue (dom s))]))) p.
Proof.
  intros Hs Hc He Hl.
  set (message := trim (textareaValue (dom s))) in *.
  assert (Hi : isImprovement s = true).
  { apply isImprovement_spec. split; [congruence | exact Hs]. }
  exists (chosenPrompt message s).
  split; [exact (generateVisualization_asked s He)|].
  unfold chosenPrompt. rewrite Hi, Hc. cbn [default from_option id].
  split; [reflexivity|]. split; [reflexivity|].
  destruct (improvementPrompt_contains (apiDescription (config s)) (originalPrompt s)
              (improvementPrompts s ++ [message]) code) as (Hapi & Hcode & _).
  split; [exact Hcode|]. split; [exact Hapi|].
  apply requestList_occurs.
  - destruct (improvementPrompts s); discriminate.
  - unfold promptsNonEmpty in Hl. rewrite forallb_app, Hl. cbn. now rewrite He.
Qed.

Lemma improvement_prompt_content_witness :
  exists p,
    asked (host (snd (generateVisualization demoDisplaying)))
    = asked (host demoDisplaying) ++ [p]
    /\ p = buildImprovementPrompt (apiDescription (config demoDisplaying))
             (originalPrompt demoDisplaying)
             (improvementPrompts demoDisplaying
              ++ [trim (textareaValue (dom demoDisplaying))]) demoDoc
    /\ isImprovementTemplate p = true
    /\ occursIn demoDoc p
    /\ occursIn (apiDescription (config demoDisplaying)) p
    /\ occursIn
         (join nl (requestList (originalPrompt demoDisplaying)
                     (improvementPrompts demoDisplaying
                      ++ [trim (textareaValue (dom demoDisplaying))]))) p.
Proof. apply improvement_prompt_content; reflexivity. Defined.

Example improvement_prompt_requests :
  join nl (requestList (originalPrompt demoDisplaying)
             (improvementPrompts demoDisplaying ++ [trim (textareaValue (dom demoDisplaying))]))
  = js "sales by region" ++ nl ++ js "as a pie chart".
Proof. reflexivity. Qed.

(** ** The scenarios of the specification, run on the code *)

Lemma demoCreated_create answer onErr :
  create (demoRaw answer onErr) demoHost = inr (demoCreated answer onErr).
Proof. reflexivity. Qed.

Lemma demoTyped_reachable answer onErr : reachable (demoTyped answer onErr).
Proof.
  apply reachable_perform, (reachable_create (demoRaw answer onErr) demoHost).
  reflexivity.
Defined.

(** C1: a valid configuration, the request typed in, the completion function
    answering the document: the promise is fulfilled and the history holds
    the one entry with that document, but [getState()] still answers [idle],
    not [displaying]. *)
Theorem generate_success_state_stays_idle :
  create (demoRaw (Resolves demoDoc) None) demoHost = inr (demoCreated (Resolves demoDoc) None)
  /\ fst (generateVisualization (demoTyped (Resolves demoDoc) None)) = Fulfilled
  /\ getState (snd (generateVisualization (demoTyped (Resolves demoDoc) None))) = IDLE
  /\ getState (snd (generateVisualization (demoTyped (Resolves demoDoc) None))) <> DISPLAYING
  /\ history (snd (generateVisualization (demoTyped (Resolves demoDoc) None)))
     = [mkItem (js "sales by region") demoDoc 1000]
  /\ sanitizeHtmlResponse demoDoc = demoDoc.
Proof. vm_compute. repeat split; discriminate. Qed.

(** C7: the completion function answering a string that is empty once
    cleaned: the fault callback receives the "empty response" fault and the
    history is as before, but [getState()] still answers [idle], not
    [error]. *)
Theorem generate_blank_response_state_stays_idle :
  Forall (fun answer =>
    let s := demoTyped (Resolves answer) quiet in
    fst (generateVisualization s) = Fulfilled
    /\ reported (host (snd (generateVisualization s)))
       = [AIDataVisualizationError INVALID_HTML_RESPONSE (js "AI returned empty response")]
    /\ history (snd (generateVisualization s)) = history s
    /\ localStorage (host (snd (generateVisualization s))) = localStorage (host s)
    /\ getState (snd (generateVisualization s)) = IDLE
    /\ getState (snd (generateVisualization s)) <> ERROR) blankAnswers.
Proof. repeat constructor; vm_compute; discriminate. Qed.

(** A second request after a successful generation: it goes out under the
    fresh-generation template and without the artifact on display. *)
Example second_request_is_not_an_improvement :
  let s1 := perform Generate (demoTyped (Resolves demoDoc) None) in
  let s2 := perform Generate (perform (TextareaInput (js "as a pie chart")) s1) in
  lastGeneratedCode s1 = Some demoDoc
  /\ asked (host s2)
     = [ buildVisualizationPrompt (js "{}") (js "sales by region");
         buildVisualizationPrompt (js "{}") (js "as a pie chart") ]
  /\ includes (buildVisualizationPrompt (js "{}") (js "as a pie chart")) demoDoc = false
  /\ length (history s2) = 2%nat.
Proof. vm_compute. split_and!; reflexivity. Qed.

(** C3: the improvement prompt is never sent.  In every instance the public
    operations can reach, also one that holds an artifact from a generation
    that succeeded, a request with non-empty text hands the completion
    function the first-generation template built from the new text alone; it
    is not the improvement prompt, which would carry the prior artifact and
    the earlier requests. *)
Theorem improvement_prompt_never_sent (s : Instance) (code : jsstring) :
  reachable s ->
  lastGeneratedCode s = Some code ->
  isEmpty (trim (textareaValue (dom s))) = false ->
  exists p,
    asked (host (snd (generateVisualization s))) = asked (host s) ++ [p]
    /\ p = buildVisualizationPrompt (apiDescription (config s)) (trim (textareaValue (dom s)))
    /\ isFreshTemplate p = true
    /\ isImprovementTemplate p = false
    /\ p <> buildImprovementPrompt (apiDescription (config s)) (originalPrompt s)
              (improvementPrompts s ++ [trim (textareaValue (dom s))]) code.
Proof.
  intros Hr Hc He.
  exists (chosenPrompt (trim (textareaValue (dom s))) s).
  split; [exact (generateVisualization_asked s He)|].
  unfold chosenPrompt. rewrite (reachable_never_improves s Hr).
  destruct (fresh_template_recognised (apiDescription (config s))
              (trim (textareaValue (dom s)))) as (Hf & Hi).
  split_and!; [reflexivity | exact Hf | exact Hi |].
  intros Heq. rewrite Heq in Hi.
  destruct (improvement_template_recognised (apiDescription (config s)) (originalPrompt s)
              (improvementPrompts s ++ [trim (textareaValue (dom s))]) code) as (Hi' & _).
  congruence.
Qed.

Lemma improvement_prompt_never_sent_witness :
  lastGeneratedCode demoSecond = Some demoDoc
  /\ exists p,
       asked (host (snd (generateVisualization demoSecond))) = asked (host demoSecond) ++ [p]
       /\ isImprovementTemplate p = false
       /\ includes p demoDoc = false
       /\ includes p (js "sales by region") = false.
Proof.
  split; [reflexivity|].
  destruct (improvement_prompt_never_sent demoSecond demoDoc) as (p & Ha & Hp & _ & Hi & _).
  - apply reachable_perform, reachable_perform, demoTyped_reachable.
  - reflexivity.
  - reflexivity.
  - exists p. split_and!; [exact Ha | exact Hi | |]; rewrite Hp; vm_compute; reflexivity.
Defined.

(** ** Faults of the host callbacks *)

Lemma generateCatch_run e s :
  exists s',
    history s' = history s
    /\ localStorage (host s') = localStorage (host s)
    /\ state s' = state s
    /\ errorShown (dom s') = true
    /\ errorMessage (dom s') = shownMessage e
    /\ reported (host s')
       = reported (host s)
         ++ match onError (config s) with Some _ => [reportedError e] | None => [] end
    /\ generateCatch e s =
         match onError (config s) with
         | None => Normal tt s'
         | Some f =>
             match f (reportedError e) with
             | None => Normal tt s'
             | Some t => Abrupt t s'
             end
         end.
Proof.
  unfold generateCatch. unfold_methods. unfold bind, get, update, ret, throw. cbn.
  destruct e as [e|]; cbn; destruct (onError (config s)) as [f|]; cbn.
  - eexists. split_and!. 7: (destruct (f e); reflexivity). all: reflexivity.
  - eexists. split_and!. 7: reflexivity. all: cbn; rewrite ?app_nil_r; reflexivity.
  - eexists. split_and!. 7: (destruct (f _); reflexivity). all: reflexivity.
  - eexists. split_and!. 7: reflexivity. all: cbn; rewrite ?app_nil_r; reflexivity.
Qed.

Lemma generateCatch_returns e s :
  onErrorReturns (config s) -> exists s', generateCatch e s = Normal tt s'.
Proof.
  intros Ho. destruct (generateCatch_run e s) as (s' & _ & _ & _ & _ & _ & _ & Hrun).
  exists s'. rewrite Hrun. unfold onErrorReturns in Ho.
  destruct (onError (config s)) as [f|]; [|reflexivity]. now rewrite Ho.
Qed.

Lemma afterCompletion_blank message improving r s :
  isEmpty (sanitizeHtmlResponse r) || isEmpty (trim (sanitizeHtmlResponse r)) = true ->
  afterCompletion message improving r s = Abrupt emptyResponse s.
Proof. intros Hb. unfold afterCompletion. cbn zeta. rewrite Hb. reflexivity. Qed.

(** When the completion fails, the [try] block throws that fault and nothing
    was saved. *)
Lemma generateBody_failure message s e :
  failureOf (chatCompletion (config s) (chosenPrompt message s)) = Some e ->
  exists s2,
    generateBody message s = Abrupt e s2
    /\ config s2 = config s /\ history s2 = history s /\ state s2 = state s
    /\ localStorage (host s2) = localStorage (host s)
    /\ reported (host s2) = reported (host s).
Proof.
  intros Hf.
  destruct (generateBody_run message s) as (s2 & Hc & Hh & Hs & Hl & Hr & _ & Hrun).
  exists s2. repeat split; try assumption.
  rewrite Hrun. unfold failureOf in Hf.
  destruct (chatCompletion (config s) (chosenPrompt message s)) as [r|e'|e'].
  - destruct (isEmpty (sanitizeHtmlResponse r) || _) eqn:Hb; [|discriminate].
    injection Hf as <-. now apply afterCompletion_blank.
  - now injection Hf as <-.
  - now injection Hf as <-.
Qed.

Lemma handleApiRequest_fulfilled requestId url s :
  fst (handleApiRequest requestId url s) = Fulfilled.
Proof.
  unfold handleApiRequest, async, handleApiRequestBody, tryCatch.
  match goal with
  | |- fst match match ?body with _ => _ end with _ => _ end = _ =>
      destruct body as [[] s1|e s1]
  end; reflexivity.
Qed.

(** What the fetch relay does, whatever the fetch function does. *)
Lemma handleApiRequest_run (requestId url : jsstring) (s : Instance) :
  handleApiRequest requestId url s
  = (Fulfilled,
     s <| host ::= fun h =>
       h <| fetched ::= fun l => l ++ [url] |>
         <| posted ::= fun l =>
              l ++ (if iframe s then [relayed requestId (apiRequest (config s) url)] else []) |> |>).
Proof.
  unfold handleApiRequest, async, handleApiRequestBody, sendMessageToIframe,
    tryCatch, bind, get, update, await, ret, throw, relayed, apiFailureText. cbn.
  destruct (apiRequest (config s) url) as [d|e|e]; cbn;
    destruct (iframe s) eqn:Hi; cbn; try reflexivity;
    unfold setField, set_host, set_fetched, set_posted; cbn; now rewrite app_nil_r.
Qed.

(** The promise of [generateVisualization] when the fault callback throws. *)
Lemma generateVisualization_rejects_when_onError_throws :
  fst (generateVisualization
         (demoTyped (Rejects (ThrownError (PlainError (js "network down")))) rethrow))
  = RejectedWith (ThrownError (PlainError (js "network down")))
  /\ fst (generateVisualization
            (demoTyped (Rejects (ThrownError (PlainError (js "network down")))) rethrow))
     <> Fulfilled.
Proof. vm_compute. split; [reflexivity | discriminate]. Qed.

(** C8, amended: for an instance that has not been destroyed (the instances
    of this model), whatever the completion and fetch functions do (resolve,
    reject or throw), and provided the fault callback is absent or returns,
    the promise of [generateVisualization] is fulfilled; a failed completion
    shows its message, is handed to the fault callback when there is one and
    leaves the history and its stored record as they were.  The promise of
    the fetch relay is fulfilled in every case: the relay calls the fetch
    function once and, when there is a frame, posts one response to it, with
    the data or, for a fetch that failed, with the text of the failure; it
    shows no error and does not call the fault callback. *)
Theorem generateVisualization_never_rejects (s : Instance) :
  onErrorReturns (config s) ->
  fst (generateVisualization s) = Fulfilled
  /\ (forall requestId url,
        handleApiRequest requestId url s
        = (Fulfilled,
           s <| host ::= fun h =>
             h <| fetched ::= fun l => l ++ [url] |>
               <| posted ::= fun l =>
                    l ++ (if iframe s
                          then [relayed requestId (apiRequest (config s) url)]
                          else []) |> |>))
  /\ (forall e,
        isEmpty (trim (textareaValue (dom s))) = false ->
        failureOf (chatCompletion (config s)
                     (chosenPrompt (trim (textareaValue (dom s))) s)) = Some e ->
        errorShown (dom (snd (generateVisualization s))) = true
        /\ errorMessage (dom (snd (generateVisualization s))) = shownMessage e
        /\ reported (host (snd (generateVisualization s)))
           = reported (host s)
             ++ match onError (config s) with Some _ => [reportedError e] | None => [] end
        /\ history (snd (generateVisualization s)) = history s
        /\ localStorage (host (snd (generateVisualization s))) = localStorage (host s)).
Proof.
  intros Ho. split; [|split].
  - destruct (isEmpty (trim (textareaValue (dom s)))) eqn:He.
    + unfold generateVisualization, generateVisualizationBody, async, bind, get.
      rewrite He. reflexivity.
    + rewrite (generateVisualization_nonempty s He). unfold async, tryCatch.
      pose proof (generateBody_config (trim (textareaValue (dom s))) s) as Hk.
      destruct (generateBody _ s) as [[] s1|e s1]; [reflexivity|].
      unfold sameConfig in Hk.
      destruct (generateCatch_returns e s1) as (s' & ->); [now rewrite Hk | reflexivity].
  - intros requestId url. apply handleApiRequest_run.
  - intros e He Hf. rewrite (generateVisualization_nonempty s He).
    destruct (generateBody_failure _ s e Hf) as (s2 & Hrun & Hc & Hh & _ & Hl & Hr).
    unfold async, tryCatch. rewrite Hrun.
    destruct (generateCatch_run e s2) as (s' & Hh' & Hl' & _ & Hshown & Hmsg & Hrep & Hcatch).
    rewrite Hcatch, Hc.
    assert (Hend : forall c : Completion unit, (c = Normal tt s' \/ exists t, c = Abrupt t s') ->
              snd match c with
                  | Normal _ s0 => (Fulfilled, s0)
                  | Abrupt e0 s0 => (RejectedWith e0, s0)
                  end = s').
    { intros c [->|[t ->]]; reflexivity. }
    rewrite Hend.
    + rewrite Hc in Hrep. repeat split; congruence.
    + destruct (onError (config s)) as [f|]; [|now left].
      destruct (f (reportedError e)); [right; eauto | now left].
Qed.

Lemma generateVisualization_never_rejects_witness :
  fst (generateVisualization (demoTyped (Rejects ThrownValue) quiet)) = Fulfilled
  /\ reported (host (snd (generateVisualization (demoTyped (Rejects ThrownValue) quiet))))
     = [PlainError (js "Failed to generate visualization")].
Proof.
  destruct (generateVisualization_never_rejects (demoTyped (Rejects ThrownValue) quiet))
    as (Hp & _ & Hf).
  - intros e. reflexivity.
  - split; [exact Hp|].
    destruct (Hf ThrownValue) as (_ & _ & Hr & _); [reflexivity | reflexivity | exact Hr].
Defined.

(** ** Clearing the visualization and the history *)

Lemma clearVisualization_run s :
  exists s',
    clearVisualization s = Normal tt s'
    /\ lastGeneratedCode s' = None /\ originalPrompt s' = None
    /\ improvementPrompts s' = [] /\ activeHistoryIndex s' = None
    /\ state s' = state s /\ iframe s' = false
    /\ history s' = history s /\ host s' = host s.
Proof.
  unfold clearVisualization. unfold_methods. unfold bind, get, update, ret. cbn.
  destruct (iframe s); eexists; split_and!; reflexivity.
Qed.

(** C10: on any instance the class can be in, [clearVisualization] resets
    the conversation context (artifact, original prompt, improvement prompts,
    active history index) and leaves [getState()] at [idle], while the
    history list and its durable record are untouched; [clearHistory] is the
    operation that empties the list and removes the record. *)
Theorem clearVisualization_keeps_history (s : Instance) :
  reachable s ->
  (exists s',
     clearVisualization s = Normal tt s'
     /\ lastGeneratedCode s' = None /\ originalPrompt s' = None
     /\ improvementPrompts s' = [] /\ activeHistoryIndex s' = None
     /\ getState s' = IDLE
     /\ history s' = history s
     /\ localStorage (host s') = localStorage (host s))
  /\ history (run clearHistory s) = []
  /\ activeHistoryIndex (run clearHistory s) = None
  /\ (storageFails (host s) = false -> localStorage (host (run clearHistory s)) = None).
Proof.
  intros Hr. split.
  - destruct (clearVisualization_run s) as (s' & Hrun & Hc & Ho & Hi & Ha & Hs & _ & Hh & Hhost).
    exists s'. split_and!; try assumption.
    + unfold getState. rewrite Hs. exact (reachable_getState_idle s Hr).
    + now rewrite Hhost.
  - unfold clearHistory, run, bind, update. cbn.
    destruct (storageFails (host s)); split_and!; try reflexivity. discriminate.
Qed.

Lemma clearVisualization_keeps_history_witness :
  exists s',
    clearVisualization (perform Generate (demoTyped (Resolves demoDoc) None)) = Normal tt s'
    /\ lastGeneratedCode s' = None
    /\ getState s' = IDLE
    /\ history s' = [mkItem (js "sales by region") demoDoc 1000]
    /\ localStorage (host s') = Some [mkItem (js "sales by region") demoDoc 1000].
Proof.
  destruct (clearVisualization_keeps_history (perform Generate (demoTyped (Resolves demoDoc) None)))
    as ((s' & Hrun & Hc & _ & _ & _ & Hs & Hh & Hl) & _).
  - apply reachable_perform, demoTyped_reachable.
  - exists s'. split_and!; [exact Hrun | exact Hc | exact Hs | rewrite Hh | rewrite Hl];
      reflexivity.
Defined.

(** ** The bound of the history *)

Lemma saveHistory_run item s :
  run (saveHistory item) s
  = let s' := s <| history ::= fun h => take 10 (item :: h) |> in
    if storageFails (host s) then s'
    else s' <| host ::= fun h => h <| localStorage := Some (take 10 (item :: history s)) |> |>.
Proof. unfold run, saveHistory, persist, bind, update. cbn. reflexivity. Qed.

Lemma saveHistory_history item s :
  history (run (saveHistory item) s) = take 10 (item :: history s).
Proof. rewrite saveHistory_run. cbn. destruct (storageFails (host s)); reflexivity. Qed.

Lemma take_app_take {A} (n m : nat) (a b : list A) :
  (n <= m)%nat -> take n (a ++ take m b) = take n (a ++ b).
Proof.
  revert n. induction a as [|x a IH]; intros n Hn; cbn.
  - rewrite take_take. f_equal. lia.
  - destruct n as [|n]; [reflexivity|]. cbn. f_equal. apply IH. lia.
Qed.

Lemma saveAll_history items s :
  (length (history s) <= 10)%nat ->
  history (saveAll items s) = take 10 (rev items ++ history s).
Proof.
  revert s. induction items as [|item items IH]; intros s Hlen.
  - cbn. now rewrite take_ge.
  - change (saveAll (item :: items) s) with (saveAll items (run (saveHistory item) s)).
    rewrite IH, saveHistory_history.
    + rewrite take_app_take by lia. cbn [rev]. now rewrite <- app_assoc.
    + rewrite saveHistory_history, length_take. lia.
Qed.

(** C5: eleven entries saved into an empty history leave exactly ten, the ten
    saved last, the newest first; and every save, from any history, leaves at
    most ten entries with the new one at the front (and writes that list to
    the durable record when the storage works). *)
Theorem saveHistory_bound (s : Instance) (items : list VisualizationHistoryItem) :
  history s = [] ->
  length items = 11%nat ->
  length (history (saveAll items s)) = 10%nat
  /\ history (saveAll items s) = rev (drop 1 items)
  /\ (forall (s0 : Instance) (item : VisualizationHistoryItem),
        (length (history (run (saveHistory item) s0)) <= 10)%nat
        /\ head (history (run (saveHistory item) s0)) = Some item
        /\ history (run (saveHistory item) s0) = take 10 (item :: history s0)
        /\ (storageFails (host s0) = false ->
            localStorage (host (run (saveHistory item) s0))
            = Some (history (run (saveHistory item) s0)))).
Proof.
  intros Hempty Hlen.
  assert (Hh : history (saveAll items s) = rev (drop 1 items)).
  { rewrite saveAll_history by (rewrite Hempty; cbn; lia).
    rewrite Hempty, app_nil_r.
    destruct items as [|first rest]; [discriminate|].
    cbn [rev drop]. rewrite take_app_length'; [reflexivity|].
    rewrite length_rev. cbn in Hlen. lia. }
  split_and!.
  - rewrite Hh, length_rev, length_drop. lia.
  - exact Hh.
  - intros s0 item. rewrite saveHistory_history. split_and!.
    + rewrite length_take. lia.
    + reflexivity.
    + reflexivity.
    + intros Hok. rewrite saveHistory_run. cbn. now rewrite Hok.
Qed.

Lemma saveHistory_bound_witness :
  history (saveAll (map (fun n => mkItem (js "request") (js "<p></p>") n)
                      [1; 2; 3; 4; 5; 6; 7; 8; 9; 10; 11])
             (demoCreated (Resolves demoDoc) None))
  = map (fun n => mkItem (js "request") (js "<p></p>") n) [11; 10; 9; 8; 7; 6; 5; 4; 3; 2].
Proof.
  destruct (saveHistory_bound (demoCreated (Resolves demoDoc) None)
              (map (fun n => mkItem (js "request") (js "<p></p>") n)
                 [1; 2; 3; 4; 5; 6; 7; 8; 9; 10; 11])) as (_ & Hh & _).
  - reflexivity.
  - reflexivity.
  - rewrite Hh. reflexivity.
Defined.

(** ** The time-out of a bridge request *)

Module BridgeTimeout.
Import BridgeClient.

Lemma step_not_answer r e :
  isAnswer r e = false -> timer r <> None -> promise r = Pending ->
  step r e = r \/ step r e = timedOut r.
Proof.
  intros Hn Ht Hp. destruct e as [d|]; cbn in *.
  - left. unfold h. rewrite Hn. now destruct (listening r).
  - right. destruct (timer r); [|congruence].
    unfold timeoutCallback, timedOut. now rewrite Hp.
Qed.

Lemma step_timedOut r e : step (timedOut r) e = timedOut r.
Proof. destruct e; reflexivity. Qed.

Lemma runEvents_timedOut r es : runEvents (timedOut r) es = timedOut r.
Proof.
  induction es as [|e es IH]; [reflexivity|].
  unfold runEvents in *. cbn [fold_left]. now rewrite step_timedOut.
Qed.

Lemma runEvents_no_answer r es :
  timer r <> None -> promise r = Pending ->
  forallb (fun e => negb (isAnswer r e)) es = true ->
  runEvents r es = r \/ runEvents r es = timedOut r.
Proof.
  intros Ht Hp. induction es as [|e es IH]; intros Hes; [now left|].
  cbn in Hes. apply andb_prop in Hes as [He Hes]. apply negb_true_iff in He.
  unfold runEvents in *. cbn [fold_left].
  destruct (step_not_answer r e He Ht Hp) as [-> | ->].
  - exact (IH Hes).
  - right. apply runEvents_timedOut.
Qed.

End BridgeTimeout.

(** C6: a request of the bridge client arms a timer of 30000 milliseconds;
    if no response with its correlation id is delivered before the timer
    fires, then from that moment the promise is rejected with the time-out
    fault and the listener is deregistered, and whatever arrives later
    (a late response with the right id included) changes neither. *)
Theorem bridge_request_timeout (stamp random u : jsstring)
    (before after : list BridgeClient.Event) :
  forallb (fun e => negb (BridgeClient.isAnswer (fst (BridgeClient.apiRequest stamp random u)) e))
    before = true ->
  BridgeClient.timer (fst (BridgeClient.apiRequest stamp random u)) = Some 30000
  /\ BridgeClient.promise
       (BridgeClient.runEvents (fst (BridgeClient.apiRequest stamp random u))
          (before ++ [BridgeClient.TimerFires]))
     = BridgeClient.RejectedMessage (js "API request timeout")
  /\ BridgeClient.listening
       (BridgeClient.runEvents (fst (BridgeClient.apiRequest stamp random u))
          (before ++ [BridgeClient.TimerFires]))
     = false
  /\ BridgeClient.runEvents (fst (BridgeClient.apiRequest stamp random u))
       (before ++ [BridgeClient.TimerFires] ++ after)
     = BridgeClient.runEvents (fst (BridgeClient.apiRequest stamp random u))
         (before ++ [BridgeClient.TimerFires]).
Proof.
  intros Hb. set (r := fst (BridgeClient.apiRequest stamp random u)) in *.
  assert (Hfire : BridgeClient.runEvents r (before ++ [BridgeClient.TimerFires])
                  = BridgeClient.timedOut r).
  { unfold BridgeClient.runEvents. rewrite fold_left_app.
    destruct (BridgeTimeout.runEvents_no_answer r before) as [Hr | Hr];
      [discriminate | reflexivity | exact Hb | |];
      unfold BridgeClient.runEvents in Hr; rewrite Hr; reflexivity. }
  split_and!.
  - reflexivity.
  - now rewrite Hfire.
  - now rewrite Hfire.
  - rewrite app_assoc. unfold BridgeClient.runEvents at 1. rewrite fold_left_app.
    fold (BridgeClient.runEvents r (before ++ [BridgeClient.TimerFires])).
    rewrite Hfire. apply BridgeTimeout.runEvents_timedOut.
Qed.

Lemma bridge_request_timeout_witness :
  BridgeClient.promise
    (BridgeClient.runEvents demoRequest (demoBefore ++ [BridgeClient.TimerFires] ++ demoLate))
  = BridgeClient.RejectedMessage (js "API request timeout")
  /\ BridgeClient.listening
       (BridgeClient.runEvents demoRequest (demoBefore ++ [BridgeClient.TimerFires] ++ demoLate))
     = false.
Proof.
  destruct (bridge_request_timeout (js "1700000000000") (js "k3j9x0q2a") (js "/api/x")
              demoBefore demoLate) as (_ & Hp & Hl & Hlate).
  - reflexivity.
  - unfold demoRequest. rewrite Hlate. split; [exact Hp | exact Hl].
Defined.

(** A response that arrives first settles the promise; the timer, which is
    not cancelled, later finds it settled and changes nothing but itself. *)
Example bridge_response_then_timer :
  BridgeClient.promise
    (BridgeClient.runEvents demoRequest (demoLate ++ [BridgeClient.TimerFires]))
  = BridgeClient.FulfilledWith (js "{}").
Proof. reflexivity. Qed.

(** * Further properties of the code *)

Lemma replaceHistory_run idx item s :
  run (replaceHistory idx item) s =
    if inRange idx (history s) then
      let s' := s <| history ::= fun h => <[Z.to_nat idx := item]> h |> in
      if storageFails (host s) then s'
      else s' <| host ::= fun h =>
             h <| localStorage := Some (<[Z.to_nat idx := item]> (history s)) |> |>
    else s.
Proof.
  unfold run, replaceHistory, persist, bind, get, update, ret.
  destruct (inRange idx (history s)); [|reflexivity]. cbn.
  destruct (storageFails (host s)); reflexivity.
Qed.

Lemma removeHistory_run idx s :
  run (removeHistory idx) s =
    if inRange idx (history s) then
      let s' := s <| history ::= fun h => delete (Z.to_nat idx) h |> in
      if storageFails (host s) then s'
      else s' <| host ::= fun h =>
             h <| localStorage := Some (delete (Z.to_nat idx) (history s)) |> |>
    else s.
Proof.
  unfold run, removeHistory, persist, bind, get, update, ret.
  destruct (inRange idx (history s)); [|reflexivity]. cbn.
  destruct (storageFails (host s)); reflexivity.
Qed.

Lemma inRange_spec idx (h : list VisualizationHistoryItem) :
  inRange idx h = true <-> 0 <= idx /\ (Z.to_nat idx < length h)%nat.
Proof.
  unfold inRange. rewrite negb_true_iff, orb_false_iff, Z.ltb_ge, Z.leb_gt. lia.
Qed.

(** X6: [replaceHistory] at an index of the history puts the entry at that
    index and leaves every other entry, the length, the active index, the
    artifact and the page as they were; at any other index it does nothing at
    all. *)
Theorem replaceHistory_in_place (idx : Z) (item : VisualizationHistoryItem) (s : Instance) :
  inRange idx (history s) = true ->
  history (run (replaceHistory idx item) s) !! Z.to_nat idx = Some item
  /\ length (history (run (replaceHistory idx item) s)) = length (history s)
  /\ (forall j : nat, j <> Z.to_nat idx ->
        history (run (replaceHistory idx item) s) !! j = history s !! j)
  /\ activeHistoryIndex (run (replaceHistory idx item) s) = activeHistoryIndex s
  /\ lastGeneratedCode (run (replaceHistory idx item) s) = lastGeneratedCode s
  /\ dom (run (replaceHistory idx item) s) = dom s
  /\ (forall (s0 : Instance) (idx0 : Z),
        inRange idx0 (history s0) = false -> run (replaceHistory idx0 item) s0 = s0).
Proof.
  intros Hr. pose proof (proj1 (inRange_spec _ _) Hr) as [H0 Hlt].
  rewrite replaceHistory_run, Hr. cbn zeta.
  split_and!.
  - destruct (storageFails (host s)); cbn; now apply list_lookup_insert_eq.
  - destruct (storageFails (host s)); cbn; apply length_insert.
  - intros j Hj. destruct (storageFails (host s)); cbn;
      now apply list_lookup_insert_ne.
  - destruct (storageFails (host s)); reflexivity.
  - destruct (storageFails (host s)); reflexivity.
  - destruct (storageFails (host s)); reflexivity.
  - intros s0 idx0 Hout. now rewrite replaceHistory_run, Hout.
Qed.

Lemma replaceHistory_in_place_witness :
  history (run (replaceHistory 0 demoOther) demoShown) !! Z.to_nat 0 = Some demoOther
  /\ length (history (run (replaceHistory 0 demoOther) demoShown)) = length (history demoShown).
Proof.
  destruct (replaceHistory_in_place 0 demoOther demoShown) as (Hi & Hl & _);
    [vm_compute; reflexivity |].
  split; [exact Hi | exact Hl].
Defined.


Lemma lookup_delete_lt_list {A} (l : list A) (i j : nat) :
  (j < i)%nat -> delete i l !! j = l !! j.
Proof.
  revert i j. induction l as [|x l IH]; intros i j Hlt; [now destruct i|].
  destruct i as [|i]; [lia|]. destruct j as [|j]; [reflexivity|].
  cbn. apply IH. lia.
Qed.

Lemma lookup_delete_ge_list {A} (l : list A) (i j : nat) :
  (i <= j)%nat -> delete i l !! j = l !! S j.
Proof.
  revert i j. induction l as [|x l IH]; intros i j Hle; [now destruct i|].
  destruct i as [|i]; [reflexivity|]. destruct j as [|j]; [lia|].
  cbn. apply IH. lia.
Qed.

Lemma length_delete_le {A} (l : list A) (i : nat) : (length (delete i l) <= length l)%nat.
Proof.
  revert i. induction l as [|x l IH]; intros i; [now destruct i|].
  destruct i as [|i]; simpl; [lia|]. specialize (IH i). lia.
Qed.

Lemma length_delete_lt {A} (l : list A) (i : nat) :
  (i < length l)%nat -> S (length (delete i l)) = length l.
Proof.
  revert i. induction l as [|x l IH]; intros i Hi; [cbn in Hi; lia|].
  destruct i as [|i]; simpl; [reflexivity|]. rewrite IH; [reflexivity | simpl in Hi; lia].
Qed.

(** X7: [removeHistory] at an index of the history drops that one entry: the
    entries before it stay, the later ones move up by one; the active index,
    the artifact and the page are not adjusted, even when the entry removed
    is the one on display.  At any other index it does nothing at all. *)
Theorem removeHistory_shifts (idx : Z) (s : Instance) :
  inRange idx (history s) = true ->
  S (length (history (run (removeHistory idx) s))) = length (history s)
  /\ (forall j : nat, (j < Z.to_nat idx)%nat ->
        history (run (removeHistory idx) s) !! j = history s !! j)
  /\ (forall j : nat, (Z.to_nat idx <= j)%nat ->
        history (run (removeHistory idx) s) !! j = history s !! S j)
  /\ activeHistoryIndex (run (removeHistory idx) s) = activeHistoryIndex s
  /\ lastGeneratedCode (run (removeHistory idx) s) = lastGeneratedCode s
  /\ dom (run (removeHistory idx) s) = dom s
  /\ (forall (s0 : Instance) (idx0 : Z),
        inRange idx0 (history s0) = false -> run (removeHistory idx0) s0 = s0).
Proof.
  intros Hr. pose proof (proj1 (inRange_spec _ _) Hr) as [H0 Hlt].
  rewrite removeHistory_run, Hr. cbn zeta.
  split_and!.
  - destruct (storageFails (host s)); cbn; now apply length_delete_lt.
  - intros j Hj. destruct (storageFails (host s)); cbn; now apply lookup_delete_lt_list.
  - intros j Hj. destruct (storageFails (host s)); cbn; now apply lookup_delete_ge_list.
  - destruct (storageFails (host s)); reflexivity.
  - destruct (storageFails (host s)); reflexivity.
  - destruct (storageFails (host s)); reflexivity.
  - intros s0 idx0 Hout. now rewrite removeHistory_run, Hout.
Qed.

Lemma removeHistory_shifts_witness :
  S (length (history (run (removeHistory 0) demoShown))) = length (history demoShown)
  /\ activeHistoryIndex (run (removeHistory 0) demoShown) = activeHistoryIndex demoShown.
Proof.
  destruct (removeHistory_shifts 0 demoShown) as (Hl & _ & _ & Ha & _);
    [vm_compute; reflexivity |].
  split; [exact Hl | exact Ha].
Defined.


(** *** Invariants of the history under every action *)

Ltac keeps_steps_with known :=
  repeat first
    [ known
    | apply keeps_ret; solve [eauto]
    | apply keeps_throw; solve [eauto]
    | apply keeps_get; solve [eauto]
    | apply keeps_await; solve [eauto]
    | apply keeps_bind; [solve [eauto] | | intros ?]
    | apply keeps_tryCatch; [solve [eauto] | | intros ?]
    | apply keeps_update
    | match goal with
      | |- keeps _ (if ?b then _ else _) => destruct b eqn:?
      | |- keeps _ (match ?x with _ => _ end) => destruct x eqn:?
      end ].

Ltac unfold_callers :=
  unfold generateVisualizationBody, generateBody, beforeCompletion, afterCompletion,
    generateCatch, handleApiRequestBody, clearVisualization, selectHistory,
    textareaInput, setTheme, callChatCompletion, callOnError, sendMessageToIframe,
    displayVisualization, showError, hideError, setState.

Lemma staysInStep_refl s : staysInStep s s.
Proof. intros H. exact H. Qed.

Lemma staysInStep_trans a b c : staysInStep a b -> staysInStep b c -> staysInStep a c.
Proof. unfold staysInStep. auto. Qed.

#[local] Hint Resolve staysInStep_refl staysInStep_trans : core.

Lemma saveHistory_inStep item : keeps staysInStep (saveHistory item).
Proof.
  intros s. unfold saveHistory, persist, bind, update. cbn.
  intros [Hf _]. rewrite Hf. split; [exact Hf|].
  unfold storedHistory. cbn. now rewrite Hf.
Qed.

Lemma replaceHistory_inStep idx item : keeps staysInStep (replaceHistory idx item).
Proof.
  intros s. unfold replaceHistory, persist, bind, get, update, ret.
  destruct (inRange idx (history s)); [|intros H; exact H]. cbn.
  intros [Hf _]. rewrite Hf. split; [exact Hf|].
  unfold storedHistory. cbn. now rewrite Hf.
Qed.

Lemma removeHistory_inStep idx : keeps staysInStep (removeHistory idx).
Proof.
  intros s. unfold removeHistory, persist, bind, get, update, ret.
  destruct (inRange idx (history s)); [|intros H; exact H]. cbn.
  intros [Hf _]. rewrite Hf. split; [exact Hf|].
  unfold storedHistory. cbn. now rewrite Hf.
Qed.

Lemma clearHistory_inStep : keeps staysInStep clearHistory.
Proof.
  intros s. unfold clearHistory, bind, update. cbn.
  intros [Hf _]. rewrite Hf. split; [exact Hf|].
  unfold storedHistory. cbn. now rewrite Hf.
Qed.

Ltac history_known :=
  first [ apply saveHistory_inStep | apply replaceHistory_inStep
        | apply removeHistory_inStep | apply clearHistory_inStep ].

Ltac inStep_assignments :=
  intros; unfold staysInStep, inStep, storedHistory;
  try match goal with |- context [iframe ?x] => destruct (iframe x) end;
  cbn; intros Hstep; exact Hstep.

Lemma generateVisualizationBody_inStep : keeps staysInStep generateVisualizationBody.
Proof. unfold_callers. keeps_steps_with history_known; inStep_assignments. Qed.

Lemma handleApiRequestBody_inStep requestId url :
  keeps staysInStep (handleApiRequestBody requestId url).
Proof. unfold_callers. keeps_steps_with history_known; inStep_assignments. Qed.

Lemma messageListener_inStep fromFrame data :
  keeps staysInStep (messageListener fromFrame data).
Proof.
  unfold messageListener. unfold_callers.
  keeps_steps_with history_known; try inStep_assignments.
  intros s'. apply (keeps_async staysInStep), handleApiRequestBody_inStep.
Qed.

Lemma perform_inStep a s :
  isHostChange a = false -> inStep s -> inStep (perform a s).
Proof.
  destruct a; unfold perform; intros Ha; try discriminate.
  - apply (keeps_async staysInStep), generateVisualizationBody_inStep.
  - apply (keeps_run staysInStep). unfold_callers.
    keeps_steps_with history_known; inStep_assignments.
  - apply (keeps_run staysInStep). unfold_callers.
    keeps_steps_with history_known; inStep_assignments.
  - apply (keeps_run staysInStep). unfold_callers.
    keeps_steps_with history_known; inStep_assignments.
  - apply (keeps_run staysInStep). unfold_callers.
    keeps_steps_with history_known; inStep_assignments.
  - apply (keeps_run staysInStep), removeHistory_inStep.
  - apply (keeps_run staysInStep), clearHistory_inStep.
  - apply (keeps_run staysInStep), messageListener_inStep.
Qed.

Lemma performAll_snoc actions a s :
  performAll (actions ++ [a]) s = perform a (performAll actions s).
Proof. unfold performAll. now rewrite fold_left_app. Qed.

Lemma create_history raw h s :
  create raw h = inr s -> host s = h /\ history s = storedHistory h.
Proof.
  unfold create, storedHistory.
  destruct (negb (containerFound raw)); [discriminate|].
  destruct (isEmpty (rawApiDescription raw)); [discriminate|].
  destruct (rawChatCompletion raw) as [chat|]; [|discriminate].
  destruct (rawApiRequest raw) as [req|]; [|discriminate].
  intros [= <-]. unfold run, loadHistory, update. cbn [host].
  destruct (storageFails h); [split; reflexivity|].
  destruct (localStorage h); split; reflexivity.
Qed.

Lemma create_inStep raw h s : create raw h = inr s -> storageFails h = false -> inStep s.
Proof.
  intros Hc Hf. destruct (create_history raw h s Hc) as [Hh Hs].
  unfold inStep. rewrite Hh. split; [exact Hf | now rewrite Hs].
Qed.

Lemma performAll_inStep actions s :
  forallb (fun a => negb (isHostChange a)) actions = true ->
  inStep s -> inStep (performAll actions s).
Proof.
  revert s. induction actions as [|a actions IH]; intros s Ha Hs; [exact Hs|].
  cbn in Ha. apply andb_prop in Ha as [Ha Hrest]. apply negb_true_iff in Ha.
  apply (IH (perform a s) Hrest). now apply perform_inStep.
Qed.

(** X3: while the storage works and nothing but the widget writes to it,
    whatever the user and the frame do, an instance constructed afterwards
    over the same browser starts with exactly the history the first instance
    holds in memory. *)
Theorem history_survives_reload (raw : RawConfig) (h : Host) (s : Instance)
    (actions : list Action) (raw2 : RawConfig) (s2 : Instance) :
  create raw h = inr s ->
  storageFails h = false ->
  forallb (fun a => negb (isHostChange a)) actions = true ->
  create raw2 (host (performAll actions s)) = inr s2 ->
  history s2 = history (performAll actions s).
Proof.
  intros Hc Hf Ha Hc2.
  destruct (performAll_inStep actions s Ha (create_inStep raw h s Hc Hf)) as [_ Hs].
  now rewrite (proj2 (create_history _ _ _ Hc2)).
Qed.

Lemma history_survives_reload_witness :
  history demoReloaded
  = history (performAll demoActions (demoCreated (Resolves demoDoc) None)).
Proof.
  apply (history_survives_reload (demoRaw (Resolves demoDoc) None) demoHost
           (demoCreated (Resolves demoDoc) None) demoActions
           (demoRaw (Resolves demoDoc) None) demoReloaded);
    vm_compute; reflexivity.
Defined.


(** *** With a storage that throws *)

Lemma recordUntouched_refl s : recordUntouched s s.
Proof. intros H. now split. Qed.

Lemma recordUntouched_trans a b c :
  recordUntouched a b -> recordUntouched b c -> recordUntouched a c.
Proof.
  unfold recordUntouched. intros Hab Hbc Ha.
  destruct (Hab Ha) as [Hb Hl]. destruct (Hbc Hb) as [Hc Hl']. split; congruence.
Qed.

#[local] Hint Resolve recordUntouched_refl recordUntouched_trans : core.

Ltac untouched_assignments :=
  intros; unfold recordUntouched; intros Hfails;
  try rewrite Hfails;
  try match goal with |- context [iframe ?x] => destruct (iframe x) end;
  cbn; split; first [exact Hfails | reflexivity].

Lemma generateVisualizationBody_untouched : keeps recordUntouched generateVisualizationBody.
Proof. unfold_methods. keeps_steps; untouched_assignments. Qed.

Lemma handleApiRequestBody_untouched requestId url :
  keeps recordUntouched (handleApiRequestBody requestId url).
Proof. unfold_methods. keeps_steps; untouched_assignments. Qed.

Lemma messageListener_untouched fromFrame data :
  keeps recordUntouched (messageListener fromFrame data).
Proof.
  unfold messageListener. unfold_methods. keeps_steps; try untouched_assignments.
  intros s'. apply (keeps_async recordUntouched), handleApiRequestBody_untouched.
Qed.

Lemma perform_untouched a s :
  isHostChange a = false -> recordUntouched s (perform a s).
Proof.
  destruct a; unfold perform; intros Ha; try discriminate.
  - apply (keeps_async recordUntouched), generateVisualizationBody_untouched.
  - apply (keeps_run recordUntouched). unfold_methods. keeps_steps; untouched_assignments.
  - apply (keeps_run recordUntouched). unfold_methods. keeps_steps; untouched_assignments.
  - apply (keeps_run recordUntouched). unfold_methods. keeps_steps; untouched_assignments.
  - apply (keeps_run recordUntouched). unfold_methods. keeps_steps; untouched_assignments.
  - apply (keeps_run recordUntouched). unfold_methods. keeps_steps; untouched_assignments.
  - apply (keeps_run recordUntouched). unfold_methods. keeps_steps; untouched_assignments.
  - apply (keeps_run recordUntouched), messageListener_untouched.
Qed.

(** X4: when the storage throws, no action of the user or the frame changes
    the stored record, and the history still works in memory: saving puts the
    entry first and keeps ten, clearing empties it. *)
Theorem history_session_only (actions : list Action) (s : Instance) :
  storageFails (host s) = true ->
  forallb (fun a => negb (isHostChange a)) actions = true ->
  localStorage (host (performAll actions s)) = localStorage (host s)
  /\ (forall item : VisualizationHistoryItem,
        history (run (saveHistory item) s) = take 10 (item :: history s))
  /\ history (run clearHistory s) = [].
Proof.
  intros Hf Ha. split_and!.
  - revert s Hf. induction actions as [|a actions IH]; intros s Hf; [reflexivity|].
    cbn in Ha. apply andb_prop in Ha as [Ha Hrest]. apply negb_true_iff in Ha.
    destruct (perform_untouched a s Ha Hf) as [Hf' Hl].
    change (performAll (a :: actions) s) with (performAll actions (perform a s)).
    now rewrite (IH Hrest (perform a s) Hf').
  - intros item. apply saveHistory_history.
  - unfold run, clearHistory, bind, update. cbn. now rewrite Hf.
Qed.

Lemma history_session_only_witness :
  localStorage (host (performAll demoActions demoSession)) = localStorage (host demoSession)
  /\ history (run clearHistory demoSession) = [].
Proof.
  destruct (history_session_only demoActions demoSession) as (Hs & _ & Hc);
    [reflexivity | reflexivity |].
  split; [exact Hs | exact Hc].
Defined.


(** *** The bound of ten entries *)

Lemma withinBound_refl s : withinBound s s.
Proof. intros H. exact H. Qed.

Lemma withinBound_trans a b c : withinBound a b -> withinBound b c -> withinBound a c.
Proof. unfold withinBound. auto. Qed.

#[local] Hint Resolve withinBound_refl withinBound_trans : core.

Ltac bound_assignments :=
  intros; unfold withinBound;
  repeat match goal with
         | |- context [if iframe ?x then _ else _] => destruct (iframe x)
         | |- context [if storageFails ?x then _ else _] => destruct (storageFails x)
         end;
  cbn; rewrite ?length_take, ?length_insert;
  try match goal with
      | |- context [length (delete ?i ?l)] => pose proof (length_delete_le l i)
      end;
  lia.

Lemma generateVisualizationBody_bound : keeps withinBound generateVisualizationBody.
Proof. unfold_methods. keeps_steps; bound_assignments. Qed.

Lemma handleApiRequestBody_bound requestId url :
  keeps withinBound (handleApiRequestBody requestId url).
Proof. unfold_methods. keeps_steps; bound_assignments. Qed.

Lemma messageListener_bound fromFrame data :
  keeps withinBound (messageListener fromFrame data).
Proof.
  unfold messageListener. unfold_methods. keeps_steps; try bound_assignments.
  intros s'. apply (keeps_async withinBound), handleApiRequestBody_bound.
Qed.

Lemma perform_bound a s : withinBound s (perform a s).
Proof.
  destruct a; unfold perform.
  - apply (keeps_async withinBound), generateVisualizationBody_bound.
  - apply (keeps_run withinBound). unfold_methods. keeps_steps; bound_assignments.
  - apply (keeps_run withinBound). unfold_methods. keeps_steps; bound_assignments.
  - apply (keeps_run withinBound). unfold_methods. keeps_steps; bound_assignments.
  - apply (keeps_run withinBound). unfold_methods. keeps_steps; bound_assignments.
  - apply (keeps_run withinBound). unfold_methods. keeps_steps; bound_assignments.
  - apply (keeps_run withinBound). unfold_methods. keeps_steps; bound_assignments.
  - apply (keeps_run withinBound), messageListener_bound.
  - intros H. exact H.
Qed.

(** X5: no action of the user, the frame or the host makes a history of at
    most ten entries longer than ten. *)
Theorem history_stays_bounded (actions : list Action) (s : Instance) :
  (length (history s) <= 10)%nat ->
  (length (history (performAll actions s)) <= 10)%nat.
Proof.
  revert s. induction actions as [|a actions IH]; intros s Hs; [exact Hs|].
  apply (IH (perform a s)), perform_bound, Hs.
Qed.

Lemma history_stays_bounded_witness :
  (length (history (performAll demoActions (demoCreated (Resolves demoDoc) None))) <= 10)%nat.
Proof.
  apply (history_stays_bounded demoActions (demoCreated (Resolves demoDoc) None)).
  vm_compute. lia.
Defined.


(** X2: a constructed instance starts idle, with no frame, no artifact, no
    prompts and no active entry, the controls in their initial look, the host
    untouched, and the history read from the durable store (empty when the
    store throws or holds nothing); it keeps the API description and the
    error callback it was given. *)
Theorem create_loads_history (raw : RawConfig) (h : Host) (s : Instance) :
  create raw h = inr s ->
  s = pristine (config s) h (storedHistory h)
  /\ apiDescription (config s) = rawApiDescription raw
  /\ onError (config s) = rawOnError raw.
Proof.
  unfold create, storedHistory, pristine.
  destruct (negb (containerFound raw)); [discriminate|].
  destruct (isEmpty (rawApiDescription raw)); [discriminate|].
  destruct (rawChatCompletion raw) as [chat|]; [|discriminate].
  destruct (rawApiRequest raw) as [req|]; [|discriminate].
  intros [= <-]. unfold run, loadHistory, update. cbn [host].
  destruct (storageFails h); [split_and!; reflexivity|].
  destruct (localStorage h); split_and!; reflexivity.
Qed.

Lemma create_loads_history_witness :
  demoCreated (Resolves demoDoc) None
  = pristine (config (demoCreated (Resolves demoDoc) None)) demoHost (storedHistory demoHost)
  /\ apiDescription (config (demoCreated (Resolves demoDoc) None))
     = rawApiDescription (demoRaw (Resolves demoDoc) None)
  /\ onError (config (demoCreated (Resolves demoDoc) None))
     = rawOnError (demoRaw (Resolves demoDoc) None).
Proof.
  apply (create_loads_history (demoRaw (Resolves demoDoc) None) demoHost). reflexivity.
Defined.



(** X8: choosing an entry of the history makes it the active one, takes its
    prompt as the original request with no improvements, shows its document
    (with the bridge injected) in the frame and as the current artifact,
    empties the text box, and writes nothing to the history or the host; an
    index outside the history changes nothing. *)
Theorem selectHistory_adopts (index : Z) (item : VisualizationHistoryItem) (s : Instance) :
  0 <= index ->
  history s !! Z.to_nat index = Some item ->
  activeHistoryIndex (run (selectHistory index) s) = Some index
  /\ originalPrompt (run (selectHistory index) s) = Some (prompt item)
  /\ improvementPrompts (run (selectHistory index) s) = []
  /\ lastGeneratedCode (run (selectHistory index) s) = Some (html item)
  /\ iframe (run (selectHistory index) s) = true
  /\ srcdoc (dom (run (selectHistory index) s)) = injectApiBridge (html item)
  /\ textareaValue (dom (run (selectHistory index) s)) = []
  /\ promptText (dom (run (selectHistory index) s)) = prompt item
  /\ history (run (selectHistory index) s) = history s
  /\ host (run (selectHistory index) s) = host s
  /\ (forall (s0 : Instance) (index0 : Z),
        inRange index0 (history s0) = false -> run (selectHistory index0) s0 = s0).
Proof.
  intros H0 Hl.
  assert (Hr : inRange index (history s) = true).
  { apply inRange_spec. split; [exact H0|]. now apply lookup_lt_Some in Hl. }
  unfold run, selectHistory. unfold_methods. unfold bind, get, update, ret.
  rewrite Hr, Hl. cbn. split_and!; try reflexivity.
  intros s0 index0 Hout. now rewrite Hout.
Qed.

Lemma selectHistory_adopts_witness :
  activeHistoryIndex (run (selectHistory 0) demoReloaded) = Some 0
  /\ originalPrompt (run (selectHistory 0) demoReloaded) = Some (js "sales by region")
  /\ lastGeneratedCode (run (selectHistory 0) demoReloaded) = Some demoDoc
  /\ iframe (run (selectHistory 0) demoReloaded) = true.
Proof.
  destruct (selectHistory_adopts 0 (mkItem (js "sales by region") demoDoc 1000) demoReloaded)
    as (Ha & Ho & _ & Hc & Hf & _); [lia | reflexivity |].
  split_and!; [exact Ha | exact Ho | exact Hc | exact Hf].
Defined.


(** X10: the fetch relay never rejects: it calls the host's fetch function
    once with the URL of the request and posts exactly one response with the
    same request id, carrying the data, or, when the function throws or
    rejects, the message of the error (the fixed text for a value that is no
    error); with no frame nothing is posted.  It touches nothing else: no
    error box, no error callback, no history. *)
Theorem handleApiRequest_relays (requestId url : jsstring) (s : Instance) :
  handleApiRequest requestId url s
  = (Fulfilled,
     s <| host ::= fun h =>
       h <| fetched ::= fun l => l ++ [url] |>
         <| posted ::= fun l =>
              l ++ (if iframe s then [relayed requestId (apiRequest (config s) url)] else []) |> |>).
Proof. apply handleApiRequest_run. Qed.


Lemma messageListener_foreign fromFrame data s :
  iframe s && fromFrame = false -> messageListener fromFrame data s = Normal tt s.
Proof.
  intros H. unfold messageListener, bind, get, ret. now rewrite H.
Qed.

(** X9: the message listener does nothing for a message that does not come
    from the widget's frame, so nothing at all before a first visualization
    and after [clearVisualization] (which empties the frame's document);
    a request with an empty id or URL is dropped as well. *)
Theorem messages_ignored_without_frame (fromFrame : bool) (data : IframeMessage)
    (s : Instance) :
  (iframe s && fromFrame = false -> messageListener fromFrame data s = Normal tt s)
  /\ messageListener fromFrame data (run clearVisualization s)
     = Normal tt (run clearVisualization s)
  /\ srcdoc (dom (run clearVisualization s)) = (if iframe s then [] else srcdoc (dom s))
  /\ (forall raw h s0, create raw h = inr s0 ->
        messageListener fromFrame data s0 = Normal tt s0)
  /\ (forall requestId url,
        isEmpty requestId || isEmpty url = true ->
        messageListener fromFrame (ApiRequest requestId url) s = Normal tt s).
Proof.
  split_and!.
  - apply messageListener_foreign.
  - apply messageListener_foreign.
    destruct (clearVisualization_run s) as (s' & Hrun & _ & _ & _ & _ & _ & Hi & _).
    unfold run. now rewrite Hrun, Hi.
  - unfold run, clearVisualization. unfold_methods. unfold bind, get, update, ret. cbn.
    destruct (iframe s); reflexivity.
  - intros raw h s0 Hc. apply messageListener_foreign.
    unfold create in Hc. repeat case_match; try discriminate.
    injection Hc as <-. unfold run, loadHistory, update. repeat case_match; reflexivity.
  - intros requestId url He. unfold messageListener, bind, get, ret.
    destruct (negb (iframe s && fromFrame)); [reflexivity|].
    replace (negb (isEmpty requestId) && negb (isEmpty url)) with false; [reflexivity|].
    symmetry. rewrite <- negb_orb. now rewrite He.
Qed.

Lemma messages_ignored_without_frame_witness :
  messageListener true (ApiRequest (js "req_1") (js "/api/x"))
    (demoCreated (Resolves demoDoc) None)
  = Normal tt (demoCreated (Resolves demoDoc) None)
  /\ messageListener true (ApiRequest (js "req_1") (js "/api/x"))
       (run clearVisualization demoShown)
     = Normal tt (run clearVisualization demoShown).
Proof.
  destruct (messages_ignored_without_frame true (ApiRequest (js "req_1") (js "/api/x"))
              demoShown) as (_ & Hc & _ & Hn & _).
  split; [| exact Hc].
  exact (Hn (demoRaw (Resolves demoDoc) None) demoHost (demoCreated (Resolves demoDoc) None)
           eq_refl).
Defined.


Lemma messageListener_fault_run (message : jsstring) (s : Instance) :
  iframe s = true ->
  errorShown (dom (run (messageListener true (IframeError message)) s)) = true
  /\ errorMessage (dom (run (messageListener true (IframeError message)) s))
     = frameFaultText message
  /\ reported (host (run (messageListener true (IframeError message)) s))
     = reported (host s)
       ++ match onError (config s) with
          | Some _ => [PlainError (frameFaultText message)]
          | None => []
          end
  /\ posted (host (run (messageListener true (IframeError message)) s)) = posted (host s)
  /\ history (run (messageListener true (IframeError message)) s) = history s
  /\ lastGeneratedCode (run (messageListener true (IframeError message)) s)
     = lastGeneratedCode s
  /\ srcdoc (dom (run (messageListener true (IframeError message)) s)) = srcdoc (dom s).
Proof.
  intros Hi. unfold run, messageListener. unfold_methods.
  unfold bind, get, update, ret, throw, frameFaultText. rewrite Hi. cbn.
  destruct (onError (config s)) as [f|]; cbn.
  - destruct (f _); cbn; split_and!; reflexivity.
  - rewrite app_nil_r. split_and!; reflexivity.
Qed.

(** X11: a fault message from the frame shows the error box with the message
    (the fixed text when the message is empty) and hands the same text to the
    error callback, once, when there is one; the frame's document, the
    artifact and the history stay, and nothing is posted back. *)
Theorem frame_fault_reported (message : jsstring) (s : Instance) :
  iframe s = true ->
  errorShown (dom (run (messageListener true (IframeError message)) s)) = true
  /\ errorMessage (dom (run (messageListener true (IframeError message)) s))
     = frameFaultText message
  /\ reported (host (run (messageListener true (IframeError message)) s))
     = reported (host s)
       ++ match onError (config s) with
          | Some _ => [PlainError (frameFaultText message)]
          | None => []
          end
  /\ posted (host (run (messageListener true (IframeError message)) s)) = posted (host s)
  /\ history (run (messageListener true (IframeError message)) s) = history s
  /\ lastGeneratedCode (run (messageListener true (IframeError message)) s)
     = lastGeneratedCode s
  /\ srcdoc (dom (run (messageListener true (IframeError message)) s)) = srcdoc (dom s).
Proof. apply messageListener_fault_run. Qed.

Lemma frame_fault_reported_witness :
  errorShown (dom (run (messageListener true (IframeError [])) demoShown)) = true
  /\ errorMessage (dom (run (messageListener true (IframeError [])) demoShown))
     = js "Visualization error".
Proof.
  destruct (frame_fault_reported [] demoShown) as (Hs & Hm & _); [vm_compute; reflexivity |].
  split; [exact Hs | exact Hm].
Defined.


Lemma generateBody_asking message s :
  generateBody message s =
    match chatCompletion (config s) (chosenPrompt message s) with
    | Resolves r => afterCompletion message (isImprovement s) r (asking message s)
    | Rejects e => Abrupt e (asking message s)
    | Throws e => Abrupt e (asking message s)
    end.
Proof.
  unfold generateBody, beforeCompletion, callChatCompletion, asking, chosenPrompt.
  unfold_methods. unfold bind, get, update, ret, await, throw.
  destruct (isImprovement s); cbn;
    match goal with |- context [chatCompletion ?c ?p] => destruct (chatCompletion c p) end;
    reflexivity.
Qed.

Lemma trim_blank w : isBlank w = true -> trim w = [].
Proof. intros H. unfold trim. now rewrite (trimStart_blank w H). Qed.

(** X12: with an empty or white-space-only text box [generateVisualization]
    only shows the error box with the text asking for a request: it settles
    normally, calls neither the completion function nor the error callback,
    and changes nothing else. *)
Theorem generate_blank_text_noop (s : Instance) :
  isBlank (textareaValue (dom s)) = true ->
  generateVisualization s
  = (Fulfilled,
     s <| dom ::= fun d =>
       d <| errorMessage := js "Please enter a visualization request" |>
         <| errorShown := true |> |>).
Proof.
  intros Hb. unfold generateVisualization, async, generateVisualizationBody, showError,
    bind, get, update.
  now rewrite (trim_blank _ Hb).
Qed.

Lemma generate_blank_text_noop_witness :
  generateVisualization demoBlank
  = (Fulfilled,
     demoBlank <| dom ::= fun d =>
       d <| errorMessage := js "Please enter a visualization request" |>
         <| errorShown := true |> |>).
Proof. apply generate_blank_text_noop. reflexivity. Defined.


Lemma generateVisualization_started s :
  isEmpty (trim (textareaValue (dom s))) = false ->
  generateVisualization s =
    async (fun s0 =>
      match
        match chatCompletion (config s) (chosenPrompt (trim (textareaValue (dom s))) s) with
        | Resolves r =>
            afterCompletion (trim (textareaValue (dom s))) (isImprovement s) r s0
        | Rejects e => Abrupt e s0
        | Throws e => Abrupt e s0
        end
      with
      | Normal a s' => Normal a s'
      | Abrupt e s' => generateCatch e s'
      end) (asking (trim (textareaValue (dom s))) s).
Proof.
  intros He. rewrite (generateVisualization_nonempty s He).
  unfold async, tryCatch. rewrite generateBody_asking.
  destruct (chatCompletion _ _); reflexivity.
Qed.

(** X13: a first request answered with a usable document: the cleaned answer
    becomes the artifact and is shown with the bridge injected, the text typed
    becomes the original request with no improvements, a new entry (request,
    artifact, time of the clock) is put first in the history, cut to ten, and
    made the active one, the text box is emptied, no error is shown or
    reported, and the history is written to the store when it works. *)
Theorem generate_fresh_success (s : Instance) (answer : jsstring) :
  isEmpty (trim (textareaValue (dom s))) = false ->
  isImprovement s = false ->
  chatCompletion (config s)
    (buildVisualizationPrompt (apiDescription (config s)) (trim (textareaValue (dom s))))
  = Resolves answer ->
  usable answer = true ->
  fst (generateVisualization s) = Fulfilled
  /\ lastGeneratedCode (snd (generateVisualization s)) = Some (sanitizeHtmlResponse answer)
  /\ originalPrompt (snd (generateVisualization s)) = Some (trim (textareaValue (dom s)))
  /\ improvementPrompts (snd (generateVisualization s)) = []
  /\ history (snd (generateVisualization s))
     = take 10 (mkItem (trim (textareaValue (dom s))) (sanitizeHtmlResponse answer)
                  (clock (host s)) :: history s)
  /\ activeHistoryIndex (snd (generateVisualization s)) = Some 0
  /\ iframe (snd (generateVisualization s)) = true
  /\ srcdoc (dom (snd (generateVisualization s)))
     = injectApiBridge (sanitizeHtmlResponse answer)
  /\ textareaValue (dom (snd (generateVisualization s))) = []
  /\ errorShown (dom (snd (generateVisualization s))) = false
  /\ reported (host (snd (generateVisualization s))) = reported (host s)
  /\ (storageFails (host s) = false ->
      localStorage (host (snd (generateVisualization s)))
      = Some (history (snd (generateVisualization s)))).
Proof.
  intros He Hi Hc Hu.
  rewrite (generateVisualization_started s He).
  unfold chosenPrompt, asking. rewrite Hi, Hc.
  unfold usable in Hu. apply negb_true_iff in Hu.
  unfold async, afterCompletion. cbn zeta. rewrite Hu.
  unfold_methods. unfold bind, get, update, ret. cbn. rewrite He. cbn.
  destruct (activeHistoryIndex s); cbn;
    destruct (storageFails (host s)); cbn; split_and!; try reflexivity; discriminate.
Qed.

Lemma generate_fresh_success_witness :
  fst (generateVisualization (demoTyped (Resolves demoDoc) None)) = Fulfilled
  /\ lastGeneratedCode (snd (generateVisualization (demoTyped (Resolves demoDoc) None)))
     = Some (sanitizeHtmlResponse demoDoc)
  /\ originalPrompt (snd (generateVisualization (demoTyped (Resolves demoDoc) None)))
     = Some (trim (textareaValue (dom (demoTyped (Resolves demoDoc) None)))).
Proof.
  destruct (generate_fresh_success (demoTyped (Resolves demoDoc) None) demoDoc)
    as (Hf & Hc & Ho & _); [reflexivity | reflexivity | reflexivity | vm_compute; reflexivity |].
  split_and!; [exact Hf | exact Hc | exact Ho].
Defined.


(** X14: in every instance the public operations can reach, a request
    answered with a usable document is filed as a new entry in front of the
    history, cut to ten, and made the active one, and the conversation starts
    over with the text typed as the original request; this also when an
    artifact is on display and an entry of the history is active: the entry on
    display is never overwritten. *)
Theorem reachable_generate_adds_entry (s : Instance) (answer : jsstring) :
  reachable s ->
  isEmpty (trim (textareaValue (dom s))) = false ->
  chatCompletion (config s) (chosenPrompt (trim (textareaValue (dom s))) s)
  = Resolves answer ->
  usable answer = true ->
  fst (generateVisualization s) = Fulfilled
  /\ history (snd (generateVisualization s))
     = take 10 (mkItem (trim (textareaValue (dom s))) (sanitizeHtmlResponse answer)
                  (clock (host s)) :: history s)
  /\ activeHistoryIndex (snd (generateVisualization s)) = Some 0
  /\ lastGeneratedCode (snd (generateVisualization s)) = Some (sanitizeHtmlResponse answer)
  /\ originalPrompt (snd (generateVisualization s)) = Some (trim (textareaValue (dom s)))
  /\ improvementPrompts (snd (generateVisualization s)) = [].
Proof.
  intros Hr He Hc Hu.
  pose proof (reachable_never_improves s Hr) as Hi.
  rewrite (generateVisualization_started s He). rewrite Hc, Hi.
  unfold asking. rewrite Hi.
  unfold usable in Hu. apply negb_true_iff in Hu.
  unfold async, afterCompletion. cbn zeta. rewrite Hu.
  unfold_methods. unfold bind, get, update, ret. cbn. rewrite He. cbn.
  destruct (activeHistoryIndex s); cbn;
    destruct (storageFails (host s)); cbn; split_and!; reflexivity.
Qed.

Lemma reachable_generate_adds_entry_witness :
  history (snd (generateVisualization demoSecond))
  = [mkItem (js "as a pie chart") demoDoc 1000; mkItem (js "sales by region") demoDoc 1000]
  /\ activeHistoryIndex (snd (generateVisualization demoSecond)) = Some 0.
Proof.
  destruct (reachable_generate_adds_entry demoSecond demoDoc) as (_ & Hh & Ha & _).
  - apply reachable_perform, reachable_perform, demoTyped_reachable.
  - reflexivity.
  - reflexivity.
  - vm_compute. reflexivity.
  - split; [rewrite Hh; vm_compute; reflexivity | exact Ha].
Defined.

Lemma afterCompletion_ui message improving r s :
  match afterCompletion message improving r s with
  | Normal _ s' => textareaDisabled (dom s') = false /\ spinnerShown (dom s') = false
  | Abrupt _ s' => s' = s
  end.
Proof.
  unfold afterCompletion. cbn zeta.
  destruct (isEmpty (sanitizeHtmlResponse r) || _); [reflexivity|].
  unfold_methods. unfold bind, get, update, ret. cbn.
  destruct improving, (activeHistoryIndex s) as [idx|]; cbn;
    try destruct (inRange idx (history s)); cbn;
    destruct (storageFails (host s)); cbn; split; reflexivity.
Qed.

Lemma generateCatch_ui e s :
  match generateCatch e s with
  | Normal _ s' => textareaDisabled (dom s') = false /\ spinnerShown (dom s') = false
  | Abrupt _ s' => textareaDisabled (dom s') = false /\ spinnerShown (dom s') = false
  end.
Proof.
  unfold generateCatch. unfold_methods. unfold bind, get, update, ret, throw. cbn.
  destruct (onError (config s)) as [f|]; cbn; [|split; reflexivity].
  destruct (f _); cbn; split; reflexivity.
Qed.

(** X15: however a generation with non-empty text ends (answer shown, empty
    answer, completion function failing, error callback throwing), the text
    box is enabled again and the spinner is hidden. *)
Theorem generate_releases_controls (s : Instance) :
  isEmpty (trim (textareaValue (dom s))) = false ->
  textareaDisabled (dom (snd (generateVisualization s))) = false
  /\ spinnerShown (dom (snd (generateVisualization s))) = false.
Proof.
  intros He. rewrite (generateVisualization_started s He). unfold async.
  set (s0 := asking _ s).
  destruct (chatCompletion _ _) as [r|e|e].
  - pose proof (afterCompletion_ui (trim (textareaValue (dom s))) (isImprovement s) r s0) as H.
    destruct (afterCompletion _ _ r s0) as [[] s1|e s1]; [exact H|]. subst s1.
    pose proof (generateCatch_ui e s0) as H'. destruct (generateCatch e s0); exact H'.
  - pose proof (generateCatch_ui e s0) as H'. destruct (generateCatch e s0); exact H'.
  - pose proof (generateCatch_ui e s0) as H'. destruct (generateCatch e s0); exact H'.
Qed.

Lemma generate_releases_controls_witness :
  textareaDisabled (dom (snd (generateVisualization (demoTyped (Rejects ThrownValue) rethrow))))
  = false
  /\ spinnerShown (dom (snd (generateVisualization (demoTyped (Rejects ThrownValue) rethrow))))
     = false.
Proof. apply generate_releases_controls. reflexivity. Defined.


Lemma generateCatch_context e s :
  match generateCatch e s with
  | Normal _ s' | Abrupt _ s' =>
      lastGeneratedCode s' = lastGeneratedCode s /\ originalPrompt s' = originalPrompt s
      /\ improvementPrompts s' = improvementPrompts s
      /\ activeHistoryIndex s' = activeHistoryIndex s /\ iframe s' = iframe s
      /\ srcdoc (dom s') = srcdoc (dom s) /\ textareaValue (dom s') = textareaValue (dom s)
  end.
Proof.
  unfold generateCatch. unfold_methods. unfold bind, get, update, ret, throw. cbn.
  destruct (onError (config s)) as [f|]; cbn; [|split_and!; reflexivity].
  destruct (f _); cbn; split_and!; reflexivity.
Qed.

(** X16: when the completion function throws or rejects, the artifact, the
    active index, the frame and its document, and the text typed all stay as
    they were; the prompt bookkeeping done before the call is not undone (the
    text stays appended to the improvements, or stays the original request). *)
Theorem generate_failure_keeps_artifact (s : Instance) (e : Thrown) :
  isEmpty (trim (textareaValue (dom s))) = false ->
  failureOf (chatCompletion (config s)
               (chosenPrompt (trim (textareaValue (dom s))) s)) = Some e ->
  lastGeneratedCode (snd (generateVisualization s)) = lastGeneratedCode s
  /\ activeHistoryIndex (snd (generateVisualization s)) = activeHistoryIndex s
  /\ iframe (snd (generateVisualization s)) = iframe s
  /\ srcdoc (dom (snd (generateVisualization s))) = srcdoc (dom s)
  /\ textareaValue (dom (snd (generateVisualization s))) = textareaValue (dom s)
  /\ originalPrompt (snd (generateVisualization s))
     = (if isImprovement s then originalPrompt s
        else Some (trim (textareaValue (dom s))))
  /\ improvementPrompts (snd (generateVisualization s))
     = (if isImprovement s then improvementPrompts s ++ [trim (textareaValue (dom s))]
        else []).
Proof.
  intros He Hf. rewrite (generateVisualization_started s He). unfold async.
  set (message := trim (textareaValue (dom s))) in *.
  assert (Hbody :
    match chatCompletion (config s) (chosenPrompt message s) with
    | Resolves r => afterCompletion message (isImprovement s) r (asking message s)
    | Rejects e0 => Abrupt e0 (asking message s)
    | Throws e0 => Abrupt e0 (asking message s)
    end = Abrupt e (asking message s)).
  { unfold failureOf in Hf. destruct (chatCompletion _ _) as [r|e0|e0].
    - destruct (isEmpty (sanitizeHtmlResponse r) || _) eqn:Hb; [|discriminate].
      injection Hf as <-. now apply afterCompletion_blank.
    - now injection Hf as <-.
    - now injection Hf as <-. }
  rewrite Hbody.
  pose proof (generateCatch_context e (asking message s)) as H.
  assert (Hask : lastGeneratedCode (asking message s) = lastGeneratedCode s
                 /\ activeHistoryIndex (asking message s) = activeHistoryIndex s
                 /\ iframe (asking message s) = iframe s
                 /\ srcdoc (dom (asking message s)) = srcdoc (dom s)
                 /\ textareaValue (dom (asking message s)) = textareaValue (dom s)
                 /\ originalPrompt (asking message s)
                    = (if isImprovement s then originalPrompt s else Some message)
                 /\ improvementPrompts (asking message s)
                    = (if isImprovement s then improvementPrompts s ++ [message] else [])).
  { unfold asking. destruct (isImprovement s); cbn; split_and!; reflexivity. }
  destruct Hask as (A1 & A2 & A3 & A4 & A5 & A6 & A7).
  destruct (generateCatch e (asking message s)) as [[] s'|e' s'];
    destruct H as (B1 & B2 & B3 & B4 & B5 & B6 & B7); cbn [snd];
    split_and!; congruence.
Qed.

Lemma generate_failure_keeps_artifact_witness :
  lastGeneratedCode (snd (generateVisualization (demoTyped (Rejects ThrownValue) quiet)))
  = lastGeneratedCode (demoTyped (Rejects ThrownValue) quiet)
  /\ textareaValue (dom (snd (generateVisualization (demoTyped (Rejects ThrownValue) quiet))))
     = textareaValue (dom (demoTyped (Rejects ThrownValue) quiet)).
Proof.
  destruct (generate_failure_keeps_artifact (demoTyped (Rejects ThrownValue) quiet) ThrownValue)
    as (Hc & _ & _ & _ & Ht & _); [reflexivity | reflexivity |].
  split; [exact Hc | exact Ht].
Defined.


(** X17: a request that is no improvement sends the completion function one
    prompt, built from the first-generation template, which contains the API
    description and the trimmed text of the request between double quotes. *)
Theorem fresh_prompt_content (s : Instance) :
  isEmpty (trim (textareaValue (dom s))) = false ->
  isImprovement s = false ->
  exists p,
    asked (host (snd (generateVisualization s))) = asked (host s) ++ [p]
    /\ p = buildVisualizationPrompt (apiDescription (config s)) (trim (textareaValue (dom s)))
    /\ isFreshTemplate p = true
    /\ occursIn ([34] ++ trim (textareaValue (dom s)) ++ [34]) p
    /\ occursIn (apiDescription (config s)) p.
Proof.
  intros He Hi. eexists. split; [exact (generateVisualization_asked s He)|].
  unfold chosenPrompt. rewrite Hi. split; [reflexivity|]. split; [reflexivity|].
  unfold buildVisualizationPrompt. split.
  - do 5 apply occursIn_later. eexists [], _. rewrite <- !app_assoc. reflexivity.
  - find_occurrence.
Qed.

Lemma fresh_prompt_content_witness :
  exists p,
    asked (host (snd (generateVisualization (demoTyped (Resolves demoDoc) None))))
    = asked (host (demoTyped (Resolves demoDoc) None)) ++ [p]
    /\ p = buildVisualizationPrompt (apiDescription (config (demoTyped (Resolves demoDoc) None)))
             (trim (textareaValue (dom (demoTyped (Resolves demoDoc) None))))
    /\ isFreshTemplate p = true
    /\ occursIn ([34] ++ trim (textareaValue (dom (demoTyped (Resolves demoDoc) None))) ++ [34]) p
    /\ occursIn (apiDescription (config (demoTyped (Resolves demoDoc) None))) p.
Proof. apply fresh_prompt_content; reflexivity. Defined.


Module BridgeFacts.
Import BridgeClient.

Lemma sameString_spec a b : sameString a b = true <-> a = b.
Proof.
  revert b. induction a as [|x a IH]; intros [|y b]; cbn; split; try easy.
  - intros H. apply andb_prop in H as [Hx Hab]. apply Z.eqb_eq in Hx.
    apply IH in Hab. congruence.
  - intros [= -> ->]. rewrite Z.eqb_refl. now apply IH.
Qed.

Lemma step_ignored r e :
  isAnswer r e = false -> isTimer e = false -> step r e = r.
Proof.
  intros Ha Ht. destruct e as [d|]; [|discriminate]. cbn in *.
  unfold h. rewrite Ha. now destruct (listening r).
Qed.

Lemma runEvents_ignored r es :
  forallb (fun e => negb (isAnswer r e) && negb (isTimer e)) es = true ->
  runEvents r es = r.
Proof.
  induction es as [|e es IH]; [reflexivity|]. cbn [forallb]. intros H.
  apply andb_prop in H as [He Hes]. apply andb_prop in He as [Ha Ht].
  apply negb_true_iff in Ha, Ht.
  unfold runEvents in *. cbn [fold_left]. rewrite (step_ignored r e Ha Ht). exact (IH Hes).
Qed.

(** Once the listener is gone and the promise settled, nothing changes
    either. *)
Lemma step_settled r e :
  listening r = false -> promise r <> Pending ->
  listening (step r e) = false /\ promise (step r e) = promise r /\ id (step r e) = id r.
Proof.
  intros Hl Hp. destruct e as [d|]; cbn.
  - rewrite Hl. now split_and!.
  - destruct (timer r); [|now split_and!]. cbn.
    split_and!; try reflexivity. now destruct (promise r).
Qed.

Lemma runEvents_settled r es :
  listening r = false -> promise r <> Pending ->
  listening (runEvents r es) = false /\ promise (runEvents r es) = promise r.
Proof.
  revert r. induction es as [|e es IH]; intros r Hl Hp; [now split|].
  unfold runEvents in *. cbn [fold_left].
  destruct (step_settled r e Hl Hp) as (Hl' & Hp' & _).
  destruct (IH (step r e) Hl') as [H1 H2]; [congruence|]. split; congruence.
Qed.

Lemma settlement_not_pending m : settlement m <> Pending.
Proof. unfold settlement. now destruct (truthy (merror m)). Qed.

End BridgeFacts.

(** X20: in the frame, the first response that carries the id of the call
    settles its promise (rejected with the error text when the response has a
    non-empty one, fulfilled with the data otherwise) and removes the
    listener; whatever comes later, a second response or the timer, does not
    change the outcome. *)
Theorem bridge_response_settles_once (stamp random u : jsstring)
    (m : BridgeClient.MessageData)
    (before after : list BridgeClient.Event) :
  BridgeClient.answers (fst (BridgeClient.apiRequest stamp random u)) (Some m) = true ->
  forallb (fun e =>
             negb (BridgeClient.isAnswer (fst (BridgeClient.apiRequest stamp random u)) e)
             && negb (isTimer e)) before = true ->
  BridgeClient.promise
    (BridgeClient.runEvents (fst (BridgeClient.apiRequest stamp random u))
       (before ++ [BridgeClient.MessageEvent (Some m)] ++ after))
  = settlement m
  /\ BridgeClient.listening
       (BridgeClient.runEvents (fst (BridgeClient.apiRequest stamp random u))
          (before ++ [BridgeClient.MessageEvent (Some m)] ++ after))
     = false.
Proof.
  intros Hm Hb. set (r := fst (BridgeClient.apiRequest stamp random u)) in *.
  unfold BridgeClient.runEvents. rewrite fold_left_app.
  fold (BridgeClient.runEvents r before). rewrite (BridgeFacts.runEvents_ignored r before Hb).
  cbn [app fold_left].
  assert (Hstep : BridgeClient.step r (BridgeClient.MessageEvent (Some m))
                  = BridgeClient.mkRequest (BridgeClient.id r) false (settlement m)
                      (BridgeClient.timer r)).
  { change (BridgeClient.step r (BridgeClient.MessageEvent (Some m)))
      with (BridgeClient.h (Some m) r).
    unfold BridgeClient.h. rewrite Hm. reflexivity. }
  rewrite Hstep.
  match goal with
  | |- context [fold_left BridgeClient.step after ?r1] =>
      destruct (BridgeFacts.runEvents_settled r1 after) as [Hl Hp];
        [reflexivity | apply BridgeFacts.settlement_not_pending |]
  end.
  unfold BridgeClient.runEvents in Hl, Hp. now rewrite Hl, Hp.
Qed.

Lemma bridge_response_settles_once_witness :
  BridgeClient.promise
    (BridgeClient.runEvents demoRequest
       (demoBefore ++ [BridgeClient.MessageEvent (Some demoAnswer)] ++ [BridgeClient.TimerFires]))
  = BridgeClient.FulfilledWith (js "[]")
  /\ BridgeClient.listening
       (BridgeClient.runEvents demoRequest
          (demoBefore ++ [BridgeClient.MessageEvent (Some demoAnswer)]
           ++ [BridgeClient.TimerFires]))
     = false.
Proof.
  apply (bridge_response_settles_once (js "1700000000000") (js "k3j9x0q2a") (js "/api/x")
           demoAnswer demoBefore [BridgeClient.TimerFires]); vm_compute; reflexivity.
Defined.


(** X21: a response is taken by the call whose id it carries only: a call
    with another id is left exactly as it was, still pending and listening if
    it was. *)
Theorem bridge_other_id_ignored (r1 r2 : BridgeClient.Request)
    (d : option BridgeClient.MessageData) :
  BridgeClient.id r1 <> BridgeClient.id r2 ->
  BridgeClient.answers r1 d = true ->
  BridgeClient.step r2 (BridgeClient.MessageEvent d) = r2.
Proof.
  intros Hne Ha. apply BridgeFacts.step_ignored; [|reflexivity].
  cbn. destruct d as [m|]; [|reflexivity]. cbn in *.
  apply andb_prop in Ha as [Ht Hid]. apply BridgeFacts.sameString_spec in Hid.
  rewrite Ht. cbn.
  destruct (BridgeClient.sameString (BridgeClient.mrequestId m) (BridgeClient.id r2)) eqn:H2;
    [|reflexivity].
  apply BridgeFacts.sameString_spec in H2. congruence.
Qed.

Lemma bridge_other_id_ignored_witness :
  BridgeClient.step demoOtherRequest (BridgeClient.MessageEvent (Some demoAnswer))
  = demoOtherRequest.
Proof.
  apply (bridge_other_id_ignored demoRequest demoOtherRequest (Some demoAnswer)).
  - intros Hid. vm_compute in Hid. discriminate Hid.
  - vm_compute. reflexivity.
Defined.


(** ** What cleaning leaves *)

Lemma trimStart_idem s : trimStart (trimStart s) = trimStart s.
Proof.
  induction s as [|c s IH]; [reflexivity|]. cbn.
  destruct (isWhiteSpace c) eqn:Hc; [exact IH|]. cbn. now rewrite Hc.
Qed.

Lemma trimEnd_idem s : trimEnd (trimEnd s) = trimEnd s.
Proof. unfold trimEnd. now rewrite rev_involutive, trimStart_idem. Qed.

Lemma trimEnd_keeps_head c x :
  isWhiteSpace c = false -> exists y, trimEnd (c :: x) = c :: y.
Proof.
  intros Hc. destruct (trimEnd_split (c :: x)) as (w & Hw & Hs).
  destruct (trimEnd (c :: x)) as [|d y].
  - cbn in Hs. subst w. unfold isBlank in Hw. cbn in Hw. now rewrite Hc in Hw.
  - cbn in Hs. injection Hs as -> _. now exists y.
Qed.

Lemma trim_idem s : trim (trim s) = trim s.
Proof.
  unfold trim at 1.
  assert (Hs : trimStart (trim s) = trim s).
  { unfold trim. destruct (trimStart s) as [|c x] eqn:Hx; [reflexivity|].
    assert (Hc : isWhiteSpace c = false).
    { apply (trimStart_fixed_head c x). rewrite <- Hx. apply trimStart_idem. }
    destruct (trimEnd_keeps_head c x Hc) as (y & ->). now apply trimStart_head. }
  rewrite Hs. unfold trim. apply trimEnd_idem.
Qed.

Lemma occursIn_trans (a b c : jsstring) : occursIn a b -> occursIn b c -> occursIn a c.
Proof.
  intros (p1 & q1 & ->) (p2 & q2 & ->). exists (p2 ++ p1), (q1 ++ q2).
  now rewrite <- !app_assoc.
Qed.

Lemma occursIn_suffix_of (w s : jsstring) : occursIn s (w ++ s).
Proof. exists w, []. now rewrite app_nil_r. Qed.

Lemma occursIn_prefix_of (s w : jsstring) : occursIn s (s ++ w).
Proof. exists [], w. reflexivity. Qed.

Lemma occursIn_drop (n : nat) (s : jsstring) : occursIn (drop n s) s.
Proof. rewrite <- (take_drop n s) at 2. apply occursIn_suffix_of. Qed.

Lemma occursIn_trimStart s : occursIn (trimStart s) s.
Proof.
  destruct (trimStart_split s) as (w & _ & Hs). rewrite Hs at 2. apply occursIn_suffix_of.
Qed.

Lemma occursIn_trimEnd s : occursIn (trimEnd s) s.
Proof.
  destruct (trimEnd_split s) as (w & _ & Hs). rewrite Hs at 2. apply occursIn_prefix_of.
Qed.

Lemma occursIn_trim s : occursIn (trim s) s.
Proof.
  unfold trim. eapply occursIn_trans; [apply occursIn_trimEnd | apply occursIn_trimStart].
Qed.

Lemma occursIn_same (s : jsstring) : occursIn s s.
Proof. exists [], []. now rewrite app_nil_r. Qed.

Lemma occursIn_stripLeadingHtmlFence s : occursIn (stripLeadingHtmlFence s) s.
Proof.
  unfold stripLeadingHtmlFence.
  destruct (startsWith fence s); [|apply occursIn_same]. cbn zeta.
  destruct (startsWithIgnoreCase _ _); [|apply occursIn_same].
  eapply occursIn_trans; [apply occursIn_trimStart|].
  eapply occursIn_trans; [apply occursIn_drop|].
  eapply occursIn_trans; [apply occursIn_trimStart|]. apply occursIn_drop.
Qed.

Lemma occursIn_stripLeadingFence s : occursIn (stripLeadingFence s) s.
Proof.
  unfold stripLeadingFence. destruct (startsWith fence s);
    [apply occursIn_drop | apply occursIn_same].
Qed.

Lemma stripTrailingFence_prefix s : exists rest, s = stripTrailingFence s ++ rest.
Proof.
  induction s as [|c s (rest & IH)]; [now exists []|].
  cbn [stripTrailingFence].
  destruct (startsWith fence (c :: s) && isBlank (drop 3 (c :: s))).
  - now exists (c :: s).
  - exists rest. cbn. now f_equal.
Qed.

Lemma occursIn_stripTrailingFence s : occursIn (stripTrailingFence s) s.
Proof.
  destruct (stripTrailingFence_prefix s) as (rest & Hs). rewrite Hs at 2.
  apply occursIn_prefix_of.
Qed.

Lemma occursIn_length (a b : jsstring) : occursIn a b -> (length a <= length b)%nat.
Proof. intros (p & q & ->). rewrite !length_app. lia. Qed.

(** X18: whatever the answer, [sanitizeHtmlResponse] returns a trimmed,
    contiguous piece of it, never longer than the answer: it only cuts at the
    two ends and inserts nothing; a blank answer gives the empty text. *)
Theorem sanitize_keeps_inside (raw : jsstring) :
  trim (sanitizeHtmlResponse raw) = sanitizeHtmlResponse raw
  /\ occursIn (sanitizeHtmlResponse raw) raw
  /\ (length (sanitizeHtmlResponse raw) <= length raw)%nat
  /\ (isBlank raw = true -> sanitizeHtmlResponse raw = []).
Proof.
  assert (Hin : occursIn (sanitizeHtmlResponse raw) raw).
  { unfold sanitizeHtmlResponse. cbn zeta.
    eapply occursIn_trans; [apply occursIn_trim|].
    eapply occursIn_trans; [apply occursIn_stripTrailingFence|].
    eapply occursIn_trans; [apply occursIn_stripLeadingFence|].
    eapply occursIn_trans; [apply occursIn_stripLeadingHtmlFence|]. apply occursIn_trim. }
  split_and!.
  - unfold sanitizeHtmlResponse. cbn zeta. apply trim_idem.
  - exact Hin.
  - now apply occursIn_length.
  - intros Hb. unfold sanitizeHtmlResponse. cbn zeta. rewrite (trim_blank raw Hb).
    reflexivity.
Qed.

Lemma sanitize_keeps_inside_witness :
  occursIn (sanitizeHtmlResponse (wrapFence true nl nl demoDoc)) (wrapFence true nl nl demoDoc)
  /\ sanitizeHtmlResponse (js "   ") = [].
Proof.
  destruct (sanitize_keeps_inside (wrapFence true nl nl demoDoc)) as (_ & Ho & _).
  destruct (sanitize_keeps_inside (js "   ")) as (_ & _ & _ & Hb).
  split; [exact Ho | exact (Hb eq_refl)].
Defined.


(** ** From the frame to the host and back *)

Lemma answers_carried r m requestId :
  BridgeClient.mtype m = js "API_RESPONSE" ->
  BridgeClient.mrequestId m = requestId ->
  BridgeClient.id r = requestId ->
  BridgeClient.answers r (Some m) = true.
Proof.
  intros Ht Hi Hr. cbn. rewrite Ht, Hi, Hr.
  apply andb_true_intro. split; now apply BridgeFacts.sameString_spec.
Qed.

(** X22: the two ends of the bridge fit together.  The request the frame's
    [apiRequest] posts is accepted by the host's listener, which calls the
    fetch function with the URL and posts one response; that response,
    delivered to the frame, settles the call: fulfilled with the data the
    fetch function resolved with, rejected with the text of its failure. *)
Theorem bridge_round_trip (stamp random u : jsstring) (s : Instance) :
  iframe s = true ->
  isEmpty u = false ->
  failsWithText (apiRequest (config s) u) = true ->
  exists answer,
    posted (host (run (messageListener true (snd (BridgeClient.apiRequest stamp random u))) s))
    = posted (host s) ++ [answer]
    /\ fetched (host (run (messageListener true
                             (snd (BridgeClient.apiRequest stamp random u))) s))
       = fetched (host s) ++ [u]
    /\ forall m : BridgeClient.MessageData,
         carries m answer ->
         BridgeClient.promise
           (BridgeClient.step (fst (BridgeClient.apiRequest stamp random u))
              (BridgeClient.MessageEvent (Some m)))
         = expectedSettlement (apiRequest (config s) u)
         /\ BridgeClient.listening
              (BridgeClient.step (fst (BridgeClient.apiRequest stamp random u))
                 (BridgeClient.MessageEvent (Some m)))
            = false.
Proof.
  intros Hi Hu Hf.
  set (rid := js "req_" ++ stamp ++ js "_" ++ random).
  exists (relayed rid (apiRequest (config s) u)).
  assert (Hrun : run (messageListener true (ApiRequest rid u)) s
                 = snd (handleApiRequest rid u s)).
  { unfold run, messageListener, bind, get, update. rewrite Hi, Hu. reflexivity. }
  change (snd (BridgeClient.apiRequest stamp random u)) with (ApiRequest rid u).
  rewrite Hrun, handleApiRequest_run, Hi. cbn [snd].
  split; [reflexivity|]. split; [reflexivity|].
  intros m [Ht Hm].
  set (r := fst (BridgeClient.apiRequest stamp random u)).
  assert (Hstep : forall requestId, BridgeClient.mrequestId m = requestId -> requestId = rid ->
            BridgeClient.step r (BridgeClient.MessageEvent (Some m))
            = BridgeClient.mkRequest rid false (settlement m) (Some 30000)).
  { intros requestId H1 H2.
    change (BridgeClient.step r (BridgeClient.MessageEvent (Some m)))
      with (BridgeClient.h (Some m) r).
    unfold BridgeClient.h.
    rewrite (answers_carried r m rid Ht); [reflexivity | congruence | reflexivity]. }
  unfold relayed, failsWithText in *.
  destruct (apiRequest (config s) u) as [d|e|e]; cbn [expectedSettlement].
  - destruct Hm as (Hid & He & Hd). rewrite (Hstep rid Hid eq_refl). cbn.
    unfold settlement. rewrite He, Hd. now split.
  - destruct Hm as (Hid & He). rewrite (Hstep rid Hid eq_refl). cbn.
    unfold settlement. rewrite He. cbn. rewrite Hf. now split.
  - destruct Hm as (Hid & He). rewrite (Hstep rid Hid eq_refl). cbn.
    unfold settlement. rewrite He. cbn. rewrite Hf. now split.
Qed.

Lemma bridge_round_trip_witness :
  exists answer,
    posted (host (run (messageListener true
                         (snd (BridgeClient.apiRequest (js "1700000000000") (js "k3j9x0q2a")
                                 (js "/api/x")))) demoShown))
    = posted (host demoShown) ++ [answer]
    /\ (carries demoAnswer answer ->
        BridgeClient.promise
          (BridgeClient.step demoRequest (BridgeClient.MessageEvent (Some demoAnswer)))
        = BridgeClient.FulfilledWith (js "[]")).
Proof.
  destruct (bridge_round_trip (js "1700000000000") (js "k3j9x0q2a") (js "/api/x") demoShown)
    as (answer & Hp & _ & Hm); [vm_compute; reflexivity | reflexivity | reflexivity |].
  exists answer. split; [exact Hp|].
  intros Hc. exact (proj1 (Hm demoAnswer Hc)).
Defined.


(** X23: a promise rejected with an error in the frame and left unhandled
    (the time-out of [apiRequest], a response with an error) reaches the user
    and the host: the error box shows the message of the error and the error
    callback, when there is one, gets an error with that message; the history
    is not touched. *)
Theorem frame_rejection_reaches_host (message : jsstring) (s : Instance) :
  iframe s = true ->
  isEmpty message = false ->
  errorShown (dom (run (messageListener true
      (FrameFaults.onUnhandledRejection (Some (FrameFaults.errorReason message)))) s)) = true
  /\ errorMessage (dom (run (messageListener true
      (FrameFaults.onUnhandledRejection (Some (FrameFaults.errorReason message)))) s))
     = message
  /\ reported (host (run (messageListener true
      (FrameFaults.onUnhandledRejection (Some (FrameFaults.errorReason message)))) s))
     = reported (host s)
       ++ match onError (config s) with Some _ => [PlainError message] | None => [] end
  /\ history (run (messageListener true
      (FrameFaults.onUnhandledRejection (Some (FrameFaults.errorReason message)))) s)
     = history s.
Proof.
  intros Hi Hm.
  assert (Hmsg : FrameFaults.onUnhandledRejection (Some (FrameFaults.errorReason message))
                 = IframeError message).
  { unfold FrameFaults.onUnhandledRejection, FrameFaults.errorReason. cbn.
    now rewrite Hm. }
  rewrite Hmsg.
  destruct (messageListener_fault_run message s Hi) as (H1 & H2 & H3 & _ & H5 & _).
  unfold frameFaultText in *. rewrite Hm in *. now split_and!.
Qed.

Lemma frame_rejection_reaches_host_witness :
  errorShown (dom (run (messageListener true
      (FrameFaults.onUnhandledRejection
         (Some (FrameFaults.errorReason (js "API request timeout"))))) demoShown)) = true
  /\ errorMessage (dom (run (messageListener true
      (FrameFaults.onUnhandledRejection
         (Some (FrameFaults.errorReason (js "API request timeout"))))) demoShown))
     = js "API request timeout".
Proof.
  destruct (frame_rejection_reaches_host (js "API request timeout") demoShown)
    as (Hs & Hm & _); [vm_compute; reflexivity | reflexivity |].
  split; [exact Hs | exact Hm].
Defined.


(** ** Tags in any letter case *)

Lemma startsWithBy_app eqb p t r :
  startsWithBy eqb p t = true -> startsWithBy eqb p (t ++ r) = true.
Proof.
  revert t. induction p as [|q p IH]; intros t; [reflexivity|].
  destruct t as [|c t]; [discriminate|]. cbn. intros H.
  apply andb_prop in H as [-> H]. cbn. now apply IH.
Qed.

Lemma html_tag_head tag :
  startsWithIgnoreCase (js "html") tag = true ->
  exists c rest, tag = c :: rest /\ isWhiteSpace c = false.
Proof.
  rewrite html_units. unfold startsWithIgnoreCase.
  destruct tag as [|c rest]; [discriminate|]. cbn [startsWithBy]. intros H.
  apply andb_prop in H as [Hc _]. exists c, rest. split; [reflexivity|].
  unfold matchesIgnoreCase in Hc.
  destruct (Z.eqb_spec 104 c) as [<-|]; [reflexivity|].
  destruct (Z.eqb_spec c (104 - 32)) as [->|]; [reflexivity|].
  destruct (Z.eqb_spec c (104 + 32)) as [->|]; [reflexivity|].
  vm_compute in Hc. discriminate.
Qed.

(** X19: the opening fence is recognised with white space between the back
    ticks and the tag, and with the tag in any mix of cases: a trimmed
    artifact that does not start with a fence comes back unchanged from such
    a wrapping. *)
Theorem sanitize_any_case_tag (sep0 tag sep1 sep2 artifact : jsstring) :
  isBlank sep0 = true -> isBlank sep1 = true -> isBlank sep2 = true ->
  startsWithIgnoreCase (js "html") tag = true -> length tag = 4%nat ->
  trim artifact = artifact -> startsWith fence artifact = false ->
  sanitizeHtmlResponse (wrapFenceWith sep0 tag sep1 sep2 artifact) = artifact.
Proof.
  intros H0 H1 H2 Htag Hlen Ht Hs.
  unfold sanitizeHtmlResponse, wrapFenceWith. cbn zeta.
  set (rest := sep1 ++ artifact ++ sep2 ++ fence).
  assert (Htrim : trim (fence ++ sep0 ++ tag ++ rest) = fence ++ sep0 ++ tag ++ rest).
  { unfold rest. rewrite fence_units.
    replace ([96; 96; 96] ++ sep0 ++ tag ++ sep1 ++ artifact ++ sep2 ++ [96; 96; 96])
      with (96 :: ([96; 96] ++ sep0 ++ tag ++ sep1 ++ artifact ++ sep2 ++ [96; 96]) ++ [96])
      by (cbn [app]; now rewrite <- !app_assoc).
    apply trim_between_ticks. }
  rewrite Htrim. unfold stripLeadingHtmlFence.
  replace (startsWith fence (fence ++ sep0 ++ tag ++ rest)) with true by reflexivity.
  replace (drop 3 (fence ++ sep0 ++ tag ++ rest)) with (sep0 ++ tag ++ rest) by reflexivity.
  rewrite trimStart_blank_app by exact H0.
  destruct (html_tag_head tag Htag) as (c & tl & Heq & Hc).
  assert (Hhead : trimStart (tag ++ rest) = tag ++ rest).
  { rewrite Heq. cbn [app]. now apply trimStart_head. }
  rewrite Hhead.
  unfold startsWithIgnoreCase. rewrite (startsWithBy_app _ _ tag rest Htag).
  replace (drop 4 (tag ++ rest)) with rest
    by (rewrite <- Hlen; symmetry; apply drop_app_length).
  unfold rest. rewrite trimStart_blank_app by exact H1.
  now apply strip_rest.
Qed.

Lemma sanitize_any_case_tag_witness :
  sanitizeHtmlResponse (wrapFenceWith (js " ") (js "HtMl") nl nl demoDoc) = demoDoc.
Proof.
  apply (sanitize_any_case_tag (js " ") (js "HtMl") nl nl demoDoc); vm_compute; reflexivity.
Defined.

